(** * Hausa TTS comparison app (app.py): a shallow embedding and its properties

    The Streamlit script [app.py] is embedded as it is written:

    - Python values that flow through the script (JSON payloads, the audio
      field, [None]) are values of [Py.pyval]; [str] is a Rocq [string],
      read as a sequence of characters with code points below 256;
      [bytes] is a [list byte]; [float] is a binary64 [PrimFloat.float].
    - [base64.b64encode] / [base64.b64decode] are modelled in [Base64]
      (RFC 4648 encoder, CPython's lenient [binascii.a2b_base64] decoder).
    - Effects (the clock, the environment, the two providers, the elements
      the script renders, [st.session_state]) are threaded through the
      state-and-exception monad [Rt.M]; the outside world is an oracle
      [Rt.World] that every theorem quantifies over.
    - One run of the script is [App.main]; the session evolves by
      [App.step]. *)

From Stdlib Require Import PrimFloat ZArith NArith String Ascii List Bool Lia.
From Stdlib.Strings Require Import Byte.
From Stdlib Require Import DecimalString.
Import ListNotations.
Local Open Scope string_scope.
Set Warnings "-register-all".

(* ===================================================================== *)
(** ** Python values and the built-ins the script uses *)
(* ===================================================================== *)

Module Py.

(** What [json()] can return, and what the audio variables can hold. JSON
    [null] is Python's [None]. A dict is kept as its items in insertion
    order. *)
Inductive pyval : Type :=
| PNone
| PBool (b : bool)
| PInt (z : Z)
| PFloat (f : float)
| PStr (s : string)
| PList (l : list pyval)
| PDict (d : list (string * pyval)).

(** An instance of (a subclass of) [Exception]: its class name and
    [str(e)]. *)
Record exception : Type := Exception
  { kind : string;
    msg : string }.

Definition TypeError (msg : string) : exception := Exception "TypeError" msg.
Definition ValueError (msg : string) : exception := Exception "ValueError" msg.
Definition KeyError (msg : string) : exception := Exception "KeyError" msg.

(** [bool(v)], the test of [if v:] and [not v]. *)
Definition truthy (v : pyval) : bool :=
  match v with
  | PNone => false
  | PBool b => b
  | PInt z => negb (z =? 0)%Z
  | PFloat f => negb (PrimFloat.eqb f 0%float)
  | PStr s => negb (s =? "")
  | PList l => match l with [] => false | _ :: _ => true end
  | PDict d => match d with [] => false | _ :: _ => true end
  end.

(** [str(n)] for an [int]. *)
Definition str_int (z : Z) : string := NilZero.string_of_int (Z.to_int z).

(** [needle in s] for two strings. *)
Definition is_substring (needle s : string) : bool :=
  match String.index 0 needle s with
  | Some _ => true
  | None => false
  end.

Definition type_name (v : pyval) : string :=
  match v with
  | PNone => "NoneType"
  | PBool _ => "bool"
  | PInt _ => "int"
  | PFloat _ => "float"
  | PStr _ => "str"
  | PList _ => "list"
  | PDict _ => "dict"
  end.

Fixpoint assoc (key : string) (d : list (string * pyval)) : option pyval :=
  match d with
  | [] => None
  | (k, v) :: rest => if k =? key then Some v else assoc key rest
  end.

(** [key in v] with a [str] key: key membership for a dict, element
    membership for a list, substring test for a string, [TypeError] for
    the values that are no containers. *)
Definition contains (key : string) (v : pyval) : exception + bool :=
  match v with
  | PDict d => inr (match assoc key d with Some _ => true | None => false end)
  | PList l =>
      inr (existsb (fun x => match x with PStr s => s =? key | _ => false end) l)
  | PStr s => inr (is_substring key s)
  | _ => inl (TypeError ("argument of type '" ++ type_name v ++ "' is not iterable"))
  end.

(** [v[key]] with a [str] key. *)
Definition getitem (v : pyval) (key : string) : exception + pyval :=
  match v with
  | PDict d =>
      match assoc key d with
      | Some x => inr x
      | None => inl (KeyError key)
      end
  | PList _ => inl (TypeError "list indices must be integers or slices, not str")
  | PStr _ => inl (TypeError "string indices must be integers, not 'str'")
  | _ => inl (TypeError ("'" ++ type_name v ++ "' object is not subscriptable"))
  end.

(** [str.lower()], character by character on code points below 256: the
    ASCII capitals and the Latin-1 capitals (all of 0xC0..0xDE but the
    multiplication sign 0xD7) move up by 32. *)
Definition lower_char (c : ascii) : ascii :=
  let n := N_of_ascii c in
  if ((65 <=? n) && (n <=? 90)
      || (192 <=? n) && (n <=? 222) && negb (n =? 215))%N
  then ascii_of_N (n + 32)
  else c.

Fixpoint lower (s : string) : string :=
  match s with
  | EmptyString => EmptyString
  | String c rest => String (lower_char c) (lower rest)
  end.

(** The characters [str.strip()] removes (code points below 256). *)
Definition isspace (c : ascii) : bool :=
  let n := N_of_ascii c in
  ((9 <=? n) && (n <=? 13) || (28 <=? n) && (n <=? 32)
   || (n =? 133) || (n =? 160))%N.

Fixpoint lstrip (s : string) : string :=
  match s with
  | EmptyString => EmptyString
  | String c rest => if isspace c then lstrip rest else s
  end.

(** Strip the right end: a character is dropped when it is white space
    and everything after it has been dropped. *)
Fixpoint rstrip (s : string) : string :=
  match s with
  | EmptyString => EmptyString
  | String c rest =>
      match rstrip rest with
      | EmptyString => if isspace c then EmptyString else String c EmptyString
      | r => String c r
      end
  end.

Definition strip (s : string) : string := rstrip (lstrip s).

(** [list.insert(i, x)] for [i >= 0]: past the end it appends. *)
Definition list_insert {A : Type} (i : nat) (x : A) (l : list A) : list A :=
  firstn i l ++ x :: skipn i l.

End Py.

(* ===================================================================== *)
(** ** base64 *)
(* ===================================================================== *)

Module Base64.

Import Py.

Definition bytes : Type := list byte.

Definition alphabet : string :=
  "ABCDEFGHIJKLMNOPQRSTUVWXYZabcdefghijklmnopqrstuvwxyz0123456789+/".

Definition BASE64_PAD : ascii := "="%char.

(** The encoding table: the character of a 6-bit value. *)
Definition table_b2a_base64 (n : N) : ascii :=
  match String.get (N.to_nat n) alphabet with
  | Some c => c
  | None => BASE64_PAD
  end.

Fixpoint find_char (c : ascii) (s : string) (i : N) : option N :=
  match s with
  | EmptyString => None
  | String d rest => if Ascii.eqb c d then Some i else find_char c rest (i + 1)
  end.

(** The decoding table: the 6-bit value of an alphabet character, a value
    of 64 or more for any other character. *)
Definition table_a2b_base64 (c : ascii) : N :=
  match find_char c alphabet 0 with
  | Some i => i
  | None => 255
  end.

Definition byte_of_N (n : N) : byte :=
  match Byte.of_N (n mod 256) with
  | Some b => b
  | None => x00
  end.

(** [binascii.b2a_base64] without the newline: three bytes give four
    characters; one or two trailing bytes are padded with [=]. *)
Fixpoint b2a_base64 (data : bytes) : list ascii :=
  match data with
  | [] => []
  | [a] =>
      let a := Byte.to_N a in
      [ table_b2a_base64 (N.shiftr a 2);
        table_b2a_base64 (N.shiftl (N.land a 3) 4);
        BASE64_PAD; BASE64_PAD ]
  | [a; b] =>
      let a := Byte.to_N a in
      let b := Byte.to_N b in
      [ table_b2a_base64 (N.shiftr a 2);
        table_b2a_base64 (N.lor (N.shiftl (N.land a 3) 4) (N.shiftr b 4));
        table_b2a_base64 (N.shiftl (N.land b 15) 2);
        BASE64_PAD ]
  | a :: b :: c :: rest =>
      let a := Byte.to_N a in
      let b := Byte.to_N b in
      let c := Byte.to_N c in
      table_b2a_base64 (N.shiftr a 2)
      :: table_b2a_base64 (N.lor (N.shiftl (N.land a 3) 4) (N.shiftr b 4))
      :: table_b2a_base64 (N.lor (N.shiftl (N.land b 15) 2) (N.shiftr c 6))
      :: table_b2a_base64 (N.land c 63)
      :: b2a_base64 rest
  end.

(** [base64.b64encode(data).decode('utf-8')]. *)
Definition b64encode (data : bytes) : string :=
  string_of_list_ascii (b2a_base64 data).

Definition BinasciiError (msg : string) : exception :=
  Exception "binascii.Error" msg.

(** The loop of [binascii.a2b_base64] with [strict_mode] off. [quad_pos] is
    the position inside the current group of four, [leftchar] the bits not
    yet written, [pads] the padding characters seen since the last data
    character. Characters outside the alphabet are skipped; a padding
    sequence that completes a group ends the decoding. *)
Fixpoint a2b_loop (data : list ascii) (quad_pos leftchar pads : N) (out : bytes)
  : exception + bytes :=
  match data with
  | [] =>
      if (quad_pos =? 0)%N then inr out
      else if (quad_pos =? 1)%N then
        inl (BinasciiError
               ("Invalid base64-encoded string: number of data characters ("
                ++ str_int (Z.of_nat (length out / 3 * 4 + 1))
                ++ ") cannot be 1 more than a multiple of 4"))
      else inl (BinasciiError "Incorrect padding")
  | ch :: rest =>
      if Ascii.eqb ch BASE64_PAD then
        if (2 <=? quad_pos)%N then
          if (4 <=? quad_pos + (pads + 1))%N then inr out
          else a2b_loop rest quad_pos leftchar (pads + 1)%N out
        else a2b_loop rest quad_pos leftchar pads out
      else
        let this_ch := table_a2b_base64 ch in
        if (64 <=? this_ch)%N then a2b_loop rest quad_pos leftchar pads out
        else if (quad_pos =? 0)%N then
          a2b_loop rest 1%N this_ch 0%N out
        else if (quad_pos =? 1)%N then
          a2b_loop rest 2%N (N.land this_ch 15) 0%N
            (out ++ [byte_of_N (N.lor (N.shiftl leftchar 2) (N.shiftr this_ch 4))])%list
        else if (quad_pos =? 2)%N then
          a2b_loop rest 3%N (N.land this_ch 3) 0%N
            (out ++ [byte_of_N (N.lor (N.shiftl leftchar 4) (N.shiftr this_ch 2))])%list
        else
          a2b_loop rest 0%N 0%N 0%N
            (out ++ [byte_of_N (N.lor (N.shiftl leftchar 6) this_ch)])%list
  end.

Definition a2b_base64 (data : list ascii) : exception + bytes :=
  a2b_loop data 0%N 0%N 0%N [].

Definition is_ascii (s : string) : bool :=
  forallb (fun c => (N_of_ascii c <? 128)%N) (list_ascii_of_string s).

(** [base64.b64decode(s)] (no [altchars], [validate=False]). A [str] must
    be ASCII; the values of the other types here are rejected. *)
Definition b64decode (s : pyval) : exception + bytes :=
  match s with
  | PStr s =>
      if is_ascii s then a2b_base64 (list_ascii_of_string s)
      else inl (ValueError "string argument should contain only ASCII characters")
  | _ =>
      inl (TypeError ("argument should be a bytes-like object or ASCII string, not '"
                      ++ type_name s ++ "'"))
  end.

End Base64.

(* ===================================================================== *)
(** ** The outside world, the session and the effect monad *)
(* ===================================================================== *)

Module Response.
(** A [requests.Response]: [json] is the outcome of calling [.json()]. *)
Record t : Type := mk
  { status_code : Z;
    text : string;
    json : Py.exception + Py.pyval }.
End Response.

Module Speech.
(** What [client.speech.generate] hands back: [read] is the outcome of
    draining the stream with [.read()]. *)
Record response : Type := mk_response
  { read : Py.exception + Base64.bytes }.

(** A [Spitch] client; [generate text language voice]. *)
Record client : Type := mk_client
  { generate : string -> string -> string -> Py.exception + response }.
End Speech.

Module Current.
(** The dict kept in [current_spitch_audio] / [current_awarri_audio]. *)
Record t : Type := mk
  { audio_base64 : Py.pyval;
    latency : float;
    text : string;
    voice : Py.pyval }.
End Current.

Module Entry.
(** The dict [add_to_history] builds. *)
Record t : Type := mk
  { timestamp : string;
    text : string;
    model : string;
    voice : Py.pyval;
    audio_base64 : Py.pyval;
    latency : float }.
End Entry.

Module Rt.

Import Py Base64.

(** [st.session_state]: the three keys the script initialises (lines
    21-28) and the keyed value of the text area. *)
Record session_state : Type := mk_session
  { audio_history : list Entry.t;
    current_spitch_audio : option Current.t;
    current_awarri_audio : option Current.t;
    text_input : string }.

Definition initial_session : session_state :=
  {| audio_history := [];
     current_spitch_audio := None;
     current_awarri_audio := None;
     text_input := "" |}.

Inductive message : Type :=
| Plain (s : string)
| GeneratedIn (latency : float).   (* f"Generated in {latency:.2f}s" *)

(** What a run does that can be seen from outside: the status elements and
    audio players it renders, and the calls it makes to the providers.
    Headings, captions, metrics and layout are not recorded. *)
Inductive event : Type :=
| StError (msg : string)
| StWarning (msg : string)
| StInfo (msg : string)
| StSuccess (msg : message)
| StAudio (data : bytes) (format : string)
| HttpPost (url : pyval) (headers : list (string * string)) (json : pyval)
| SpeechGenerate (text language voice : string).

(** What [st.cache_resource] keeps of the first call of
    [initialize_spitch]: the client it returned, or [None] together with the
    [st.error] texts Streamlit replays when the cached [None] is handed out
    (none, if it replays nothing). *)
Inductive cached_init : Type :=
| CachedClient (client : Speech.client)
| CachedNone (replayed : list string).

(** The oracle for everything outside the script. *)
Record World : Type := mk_world
  { w_getenv : string -> option string;       (* the environment after load_dotenv() *)
    w_spitch_cache : option cached_init;      (* the cache of initialize_spitch when the
                                                 run starts; [None] when it is empty *)
    w_Spitch : exception + Speech.client;     (* the constructor Spitch() *)
    w_post : pyval -> list (string * string) -> pyval -> exception + Response.t;
    w_time : nat -> float;                    (* successive readings of time.time() *)
    w_now : nat -> string;                    (* datetime.now().strftime(...) *)
    w_assign_widget : option exception        (* does Streamlit refuse to overwrite a
                                                 widget's keyed value? *) }.

Record runtime : Type := mk_runtime
  { session : session_state;
    events : list event;      (* oldest first *)
    clock : nat }.

(** How a computation can stop early: an [Exception] was raised, or
    [st.rerun()] asked Streamlit to abandon the run (a control-flow signal
    that [except Exception] does not catch). *)
Inductive signal : Type :=
| Raised (e : exception)
| Rerun.

(** State and exceptions: what was done before an exception stays done. *)
Definition M (A : Type) : Type := runtime -> (signal + A) * runtime.

Definition ret {A : Type} (x : A) : M A := fun r => (inr x, r).

Definition bind {A B : Type} (c : M A) (k : A -> M B) : M B :=
  fun r =>
    match c r with
    | (inl e, r') => (inl e, r')
    | (inr x, r') => k x r'
    end.

Definition raise {A : Type} (e : exception) : M A := fun r => (inl (Raised e), r).

Definition lift {A : Type} (x : exception + A) : M A :=
  match x with
  | inl e => raise e
  | inr a => ret a
  end.

(** [try: c  except Exception as e: h e]. *)
Definition try_except {A : Type} (c : M A) (h : exception -> M A) : M A :=
  fun r =>
    match c r with
    | (inl (Raised e), r') => h e r'
    | other => other
    end.

Definition emit (e : event) : M unit :=
  fun r => (inr tt, {| session := session r;
                       events := (events r ++ [e])%list;
                       clock := clock r |}).

(** Render again the [st.error] elements of a cached call. *)
Definition replay (msgs : list string) : M unit :=
  fun r => (inr tt, {| session := session r;
                       events := (events r ++ map StError msgs)%list;
                       clock := clock r |}).

Definition tick : M nat :=
  fun r => (inr (clock r), {| session := session r;
                              events := events r;
                              clock := S (clock r) |}).

Definition get_session : M session_state := fun r => (inr (session r), r).

Definition put_session (s : session_state) : M unit :=
  fun r => (inr tt, {| session := s; events := events r; clock := clock r |}).

Fixpoint for_each {A : Type} (l : list A) (body : A -> M unit) : M unit :=
  match l with
  | [] => ret tt
  | x :: rest => bind (body x) (fun _ => for_each rest body)
  end.

Definition when (b : bool) (c : M unit) : M unit := if b then c else ret tt.

Module Notations.
Notation "x <- c ;; k" := (bind c (fun x => k))
  (at level 61, c at next level, right associativity).
Notation "' pat <- c ;; k" := (bind c (fun x => match x with pat => k end))
  (at level 61, pat pattern, c at next level, right associativity).
Notation "c ;; k" := (bind c (fun _ => k))
  (at level 61, right associativity).
End Notations.

End Rt.

(* ===================================================================== *)
(** ** app.py *)
(* ===================================================================== *)

Module Widgets.
Inductive button : Type :=
| Clear            (* line 168 *)
| GenerateSpitch   (* line 181 *)
| GenerateAwarri   (* line 197 *)
| SaveSpitch       (* line 228, key save_spitch *)
| SaveAwarri.      (* line 249, key save_awarri *)

(** What the user has set when a run starts: the text area, the voice
    select box, and the button whose click started the run, if any. *)
Record t : Type := mk
  { text_input : string;
    voice_selection : string;
    pressed : option button }.

Definition is_pressed (ui : t) (b : button) : bool :=
  match pressed ui, b with
  | Some Clear, Clear
  | Some GenerateSpitch, GenerateSpitch
  | Some GenerateAwarri, GenerateAwarri
  | Some SaveSpitch, SaveSpitch
  | Some SaveAwarri, SaveAwarri => true
  | _, _ => false
  end.
End Widgets.

Module App.

Import Py Base64 Rt Rt.Notations.

(** The options of the voice select box (line 160) and the limit of the
    text area (line 142). *)
Definition voice_options : list string := ["Hasan"; "Amina"; "Zainab"; "Aliyu"].
Definition max_chars : nat := 500.

Section Script.

Variable w : World.

(** *** Library calls *)

Definition os_getenv (name : string) : M pyval :=
  ret (match w_getenv w name with
       | Some v => PStr v
       | None => PNone
       end).

(** [os.environ[name] = value]: only a [str] is accepted. Every use in the
    script writes back the value just read, so the environment is the same
    afterwards. *)
Definition os_environ_set (name : string) (value : pyval) : M unit :=
  match value with
  | PStr _ => ret tt
  | _ => raise (TypeError ("str expected, not " ++ type_name value))
  end.

Definition time_time : M float := n <- tick ;; ret (w_time w n).

Definition datetime_now_strftime : M string := n <- tick ;; ret (w_now w n).

Definition requests_post (url : pyval) (headers : list (string * string))
    (json : pyval) : M Response.t :=
  emit (HttpPost url headers json) ;;
  lift (w_post w url headers json).

Definition speech_generate (client : Speech.client) (text language voice : string)
  : M Speech.response :=
  emit (SpeechGenerate text language voice) ;;
  lift (Speech.generate client text language voice).

Definition st_error (msg : string) : M unit := emit (StError msg).
Definition st_warning (msg : string) : M unit := emit (StWarning msg).
Definition st_info (msg : string) : M unit := emit (StInfo msg).
Definition st_success (msg : message) : M unit := emit (StSuccess msg).
Definition st_audio (data : bytes) (format : string) : M unit :=
  emit (StAudio data format).
Definition st_rerun : M unit := fun r => (inl Rerun, r).

(** *** Lines 30-38. Under [st.cache_resource] the body runs only while
    the cache is empty; afterwards every call, in this run and in later
    ones, gets the outcome of that first call: the client, or [None] after
    one failed initialisation. The cache lives in the process, outside the
    session, and the script calls the function at most once in a run, so
    the cache a run finds is part of its world. *)
Definition initialize_spitch : M (option Speech.client) :=
  match w_spitch_cache w with
  | Some (CachedClient client) => ret (Some client)
  | Some (CachedNone replayed) => replay replayed ;; ret None
  | None =>
      try_except
        (key <- os_getenv "SPITCH_API_KEY" ;;
         os_environ_set "SPITCH_API_KEY" key ;;
         client <- lift (w_Spitch w) ;;
         ret (Some client))
        (fun e =>
           st_error ("Failed to initialize Spitch: " ++ msg e) ;;
           ret None)
  end.

(** *** Lines 40-64. A client object is true, so [not client] holds only
    for [None]. *)
Definition generate_spitch_audio (text voice : string) : M (pyval * float) :=
  client <- initialize_spitch ;;
  match client with
  | None => ret (PNone, 0%float)
  | Some client =>
      try_except
        (start_time <- time_time ;;
         response <- speech_generate client text "ha" (lower voice) ;;
         audio_bytes <- lift (Speech.read response) ;;
         now <- time_time ;;
         let latency := (now - start_time)%float in
         let audio_base64 := b64encode audio_bytes in
         ret (PStr audio_base64, latency))
        (fun e =>
           st_error ("Spitch generation failed: " ++ msg e) ;;
           ret (PNone, 0%float))
  end.

(** *** Lines 66-106 *)
Definition generate_awarri_audio (text : string) : M (pyval * float) :=
  try_except
    (url <- os_getenv "AWARRI_TTS_URL" ;;
     api_key <- os_getenv "AWARRI_API_KEY" ;;
     if negb (truthy url) || negb (truthy api_key) then
       st_error "Awarri API credentials not configured" ;;
       ret (PNone, 0%float)
     else
       let headers := [ ("accept", "application/json");
                        ("Content-Type", "application/json") ] in
       let data := PDict [ ("api_key", api_key);
                           ("audio_txt", PStr text);
                           ("lang", PStr "hausa") ] in
       start_time <- time_time ;;
       response <- requests_post url headers data ;;
       now <- time_time ;;
       let latency := (now - start_time)%float in
       if (Response.status_code response =? 200)%Z then
         result <- lift (Response.json response) ;;
         has_field <- lift (contains "base64_data" result) ;;
         if has_field then
           audio <- lift (getitem result "base64_data") ;;
           ret (audio, latency)
         else
           st_error "No 'base64_data' in Awarri response" ;;
           ret (PNone, 0%float)
       else
         st_error ("Awarri API error: " ++ str_int (Response.status_code response)
                   ++ " - " ++ Response.text response) ;;
         ret (PNone, 0%float))
    (fun e =>
       st_error ("Awarri generation failed: " ++ msg e) ;;
       ret (PNone, 0%float)).

(** *** Lines 108-118 *)
Definition add_to_history (text model : string) (voice audio_base64 : pyval)
    (latency : float) : M unit :=
  timestamp <- datetime_now_strftime ;;
  let history_entry :=
    {| Entry.timestamp := timestamp;
       Entry.text := text;
       Entry.model := model;
       Entry.voice := voice;
       Entry.audio_base64 := audio_base64;
       Entry.latency := latency |} in
  s <- get_session ;;
  put_session {| audio_history := list_insert 0 history_entry (audio_history s);
                 current_spitch_audio := current_spitch_audio s;
                 current_awarri_audio := current_awarri_audio s;
                 text_input := text_input s |}.

Definition set_current_spitch_audio (v : option Current.t) : M unit :=
  s <- get_session ;;
  put_session {| audio_history := audio_history s;
                 current_spitch_audio := v;
                 current_awarri_audio := current_awarri_audio s;
                 text_input := text_input s |}.

Definition set_current_awarri_audio (v : option Current.t) : M unit :=
  s <- get_session ;;
  put_session {| audio_history := audio_history s;
                 current_spitch_audio := current_spitch_audio s;
                 current_awarri_audio := v;
                 text_input := text_input s |}.

(** [st.session_state.text_input = value]: Streamlit may refuse it. *)
Definition set_text_input (value : string) : M unit :=
  match w_assign_widget w with
  | Some e => raise e
  | None =>
      s <- get_session ;;
      put_session {| audio_history := audio_history s;
                     current_spitch_audio := current_spitch_audio s;
                     current_awarri_audio := current_awarri_audio s;
                     text_input := value |}
  end.

(** *** Lines 120-123 *)
Definition clear_current_display : M unit :=
  set_current_spitch_audio None ;;
  set_current_awarri_audio None.

(** *** Lines 125-128 *)
Definition display_audio_from_base64 (audio_base64 : pyval) : M unit :=
  audio_bytes <- lift (b64decode audio_base64) ;;
  st_audio audio_bytes "audio/wav".

(** A slot is true when it holds a dict (the dicts stored are never
    empty) and false when it holds [None]. *)
Definition slot_truthy (slot : option Current.t) : bool :=
  match slot with
  | Some _ => true
  | None => false
  end.

(** *** Lines 168-171 *)
Definition on_clear : M unit :=
  set_text_input "" ;;
  clear_current_display ;;
  st_rerun.

(** *** Lines 181-194 *)
Definition on_generate_spitch (text_input voice_selection : string) : M unit :=
  if negb (truthy (PStr (strip text_input))) then
    st_warning "Please enter text before generating"
  else
    ' (audio_base64, latency) <- generate_spitch_audio text_input voice_selection ;;
    when (truthy audio_base64)
      (set_current_spitch_audio
         (Some {| Current.audio_base64 := audio_base64;
                  Current.latency := latency;
                  Current.text := text_input;
                  Current.voice := PStr voice_selection |}) ;;
       st_success (GeneratedIn latency)).

(** *** Lines 197-210 *)
Definition on_generate_awarri (text_input : string) : M unit :=
  if negb (truthy (PStr (strip text_input))) then
    st_warning "Please enter text before generating"
  else
    ' (audio_base64, latency) <- generate_awarri_audio text_input ;;
    when (truthy audio_base64)
      (set_current_awarri_audio
         (Some {| Current.audio_base64 := audio_base64;
                  Current.latency := latency;
                  Current.text := text_input;
                  Current.voice := PNone |}) ;;
       st_success (GeneratedIn latency)).

(** *** Lines 228-237 *)
Definition on_save_spitch (spitch_data : Current.t) : M unit :=
  add_to_history (Current.text spitch_data) "Spitch AI"
    (Current.voice spitch_data) (Current.audio_base64 spitch_data)
    (Current.latency spitch_data) ;;
  st_success (Plain "Saved to history!") ;;
  st_rerun.

(** *** Lines 249-258 *)
Definition on_save_awarri (awarri_data : Current.t) : M unit :=
  add_to_history (Current.text awarri_data) "Awarri"
    (PStr "Default") (Current.audio_base64 awarri_data)
    (Current.latency awarri_data) ;;
  st_success (Plain "Saved to history!") ;;
  st_rerun.

(** *** Lines 215-262 *)
Definition current_generation (ui : Widgets.t) : M unit :=
  s <- get_session ;;
  when (slot_truthy (current_spitch_audio s) || slot_truthy (current_awarri_audio s))
    (match current_spitch_audio s with
     | Some spitch_data =>
         display_audio_from_base64 (Current.audio_base64 spitch_data) ;;
         when (Widgets.is_pressed ui Widgets.SaveSpitch) (on_save_spitch spitch_data)
     | None => st_info "Generate with Spitch to see results here"
     end ;;
     s <- get_session ;;
     match current_awarri_audio s with
     | Some awarri_data =>
         display_audio_from_base64 (Current.audio_base64 awarri_data) ;;
         when (Widgets.is_pressed ui Widgets.SaveAwarri) (on_save_awarri awarri_data)
     | None => st_info "Generate with Awarri to see results here"
     end).

(** *** Lines 267-285 *)
Definition generation_history : M unit :=
  s <- get_session ;;
  match audio_history s with
  | [] => st_info "No audio generated yet. Generate some audio to see history here!"
  | history =>
      for_each history
        (fun entry => display_audio_from_base64 (Entry.audio_base64 entry))
  end.

(** *** Lines 139-145: the text area keeps its value under its key *)
Definition register_text_input (ui : Widgets.t) : M unit :=
  s <- get_session ;;
  put_session {| audio_history := audio_history s;
                 current_spitch_audio := current_spitch_audio s;
                 current_awarri_audio := current_awarri_audio s;
                 text_input := Widgets.text_input ui |}.

(** *** Lines 164-165. The characters of the literal that are outside
    Latin-1 are kept as their UTF-8 bytes. *)
Definition awarri_voice_note : string := "ℹ️ Awarri uses default voice".

(** *** Lines 136-165: the input section and the settings above the
    buttons *)
Definition inputs (ui : Widgets.t) : M unit :=
  register_text_input ui ;;
  st_info awarri_voice_note.

(** *** One run of the script, top to bottom *)
Definition main (ui : Widgets.t) : M unit :=
  inputs ui ;;
  when (Widgets.is_pressed ui Widgets.Clear) on_clear ;;
  when (Widgets.is_pressed ui Widgets.GenerateSpitch)
    (on_generate_spitch (Widgets.text_input ui) (Widgets.voice_selection ui)) ;;
  when (Widgets.is_pressed ui Widgets.GenerateAwarri)
    (on_generate_awarri (Widgets.text_input ui)) ;;
  current_generation ui ;;
  generation_history.

End Script.

(** A run starts with nothing rendered; whatever way it ends (to the last
    line, by [st.rerun()], or by an uncaught exception), the session state
    it leaves is kept for the next run. *)
Definition start (s : session_state) : runtime :=
  {| session := s; events := []; clock := 0 |}.

Definition run_script (w : World) (ui : Widgets.t) (s : session_state)
  : session_state :=
  session (snd (main w ui (start s))).

(** The widgets only offer the listed voices and at most [max_chars]
    characters. *)
Definition valid_widgets (ui : Widgets.t) : Prop :=
  In (Widgets.voice_selection ui) voice_options
  /\ String.length (Widgets.text_input ui) <= max_chars.

Inductive step : session_state -> session_state -> Prop :=
| step_run (w : World) (ui : Widgets.t) (s : session_state) :
    valid_widgets ui -> step s (run_script w ui s).

Inductive reachable : session_state -> Prop :=
| reachable_init : reachable initial_session
| reachable_step s s' : reachable s -> step s s' -> reachable s'.

End App.

(* ===================================================================== *)
(** ** Vocabulary of the statements *)
(* ===================================================================== *)

Import Py Base64 Rt App.

(** *** Running a computation *)

Definition result_of {A : Type} (c : M A) (r : runtime) : signal + A := fst (c r).
Definition state_after {A : Type} (c : M A) (r : runtime) : runtime := snd (c r).

(** The provider calls among a list of events. *)
Definition is_provider_call (e : event) : bool :=
  match e with
  | HttpPost _ _ _ | SpeechGenerate _ _ _ => true
  | _ => false
  end.

Definition provider_calls (evs : list event) : list event :=
  filter is_provider_call evs.

Definition is_http_post (e : event) : bool :=
  match e with
  | HttpPost _ _ _ => true
  | _ => false
  end.

(** The number of times the HTTP transport was invoked. *)
Definition transport_invocations (evs : list event) : nat :=
  length (filter is_http_post evs).

(** A configuration value is missing when the variable is unset or set to
    the empty string: the two cases in which [not value] holds. *)
Definition missing (v : option string) : Prop := v = None \/ v = Some "".

Definition configured (v : option string) (s : string) : Prop :=
  v = Some s /\ s <> "".

Definition spitch_request (text voice : string) : event :=
  SpeechGenerate text "ha" (lower voice).

Definition awarri_headers : list (string * string) :=
  [ ("accept", "application/json"); ("Content-Type", "application/json") ].

Definition awarri_body (api_key text : string) : pyval :=
  PDict [ ("api_key", PStr api_key);
          ("audio_txt", PStr text);
          ("lang", PStr "hausa") ].

Definition awarri_request (url api_key text : string) : event :=
  HttpPost (PStr url) awarri_headers (awarri_body api_key text).

(** *** What a computation shows *)

(** The events a computation adds when it is run from [r]. *)
Definition new_events {A : Type} (c : M A) (r : runtime) : list event :=
  skipn (length (events r)) (events (state_after c r)).

(** It rendered an [st.error] element. *)
Definition reports_error {A : Type} (c : M A) (r : runtime) : Prop :=
  exists msg, In (StError msg) (new_events c r).

(** It rendered the element [st.success(f"Generated in ...")]. *)
Definition reports_success {A : Type} (c : M A) (r : runtime) : Prop :=
  exists latency, In (StSuccess (GeneratedIn latency)) (new_events c r).

(** *** The voice of a result *)

(** In the current slots: a Spitch result carries one of the offered
    voices, an Awarri result carries [None]. *)
Definition slot_voice_ok (s : session_state) : Prop :=
  (forall d, current_spitch_audio s = Some d ->
             exists v, Current.voice d = PStr v /\ In v voice_options)
  /\ (forall d, current_awarri_audio s = Some d -> Current.voice d = PNone).

(** In the history: a Spitch entry carries one of the offered voices, an
    Awarri entry carries the string "Default". *)
Definition entry_voice_ok (e : Entry.t) : Prop :=
  (Entry.model e = "Spitch AI"
   /\ exists v, Entry.voice e = PStr v /\ In v voice_options)
  \/ (Entry.model e = "Awarri" /\ Entry.voice e = PStr "Default").

Definition voice_invariant (s : session_state) : Prop :=
  slot_voice_ok s /\ Forall entry_voice_ok (audio_history s).

(** A computation keeps a property of the session, however it ends. *)
Definition preserves {A : Type} (I : session_state -> Prop) (c : M A) : Prop :=
  forall r, I (session r) -> I (session (state_after c r)).

(** A computation leaves the session alone. *)
Definition stable {A : Type} (c : M A) : Prop :=
  forall r, session (state_after c r) = session r.

(** *** The two providers, side by side *)

Inductive provider : Type := Spitch | Awarri.

(** The adapter of a provider. *)
Definition adapter (w : World) (p : provider) (text voice : string)
  : M (pyval * float) :=
  match p with
  | Spitch => generate_spitch_audio w text voice
  | Awarri => generate_awarri_audio w text
  end.

(** The button handler of a provider. *)
Definition on_generate (w : World) (p : provider) (text voice : string) : M unit :=
  match p with
  | Spitch => on_generate_spitch w text voice
  | Awarri => on_generate_awarri w text
  end.

(** The slot of a provider. *)
Definition current (p : provider) (s : session_state) : option Current.t :=
  match p with
  | Spitch => current_spitch_audio s
  | Awarri => current_awarri_audio s
  end.

(** The client [initialize_spitch] hands out in a world: the cached one;
    none after a cached failure; with an empty cache the one the
    constructor gives, provided the key is in the environment. *)
Definition client_in_use (w : World) : option Speech.client :=
  match w_spitch_cache w with
  | Some (CachedClient client) => Some client
  | Some (CachedNone _) => None
  | None =>
      match w_getenv w "SPITCH_API_KEY", w_Spitch w with
      | Some _, inr client => Some client
      | _, _ => None
      end
  end.

(** The provider can be called: there is a Spitch client in use, the
    Awarri endpoint and key are set. *)
Definition available (w : World) (p : provider) : Prop :=
  match p with
  | Spitch => exists client, client_in_use w = Some client
  | Awarri =>
      exists url api_key,
        configured (w_getenv w "AWARRI_TTS_URL") url
        /\ configured (w_getenv w "AWARRI_API_KEY") api_key
  end.

Definition env_value (v : option string) : string :=
  match v with
  | Some s => s
  | None => ""
  end.

(** The one request an adapter is to make. *)
Definition request_of (w : World) (p : provider) (text voice : string) : event :=
  match p with
  | Spitch => spitch_request text voice
  | Awarri =>
      awarri_request (env_value (w_getenv w "AWARRI_TTS_URL"))
        (env_value (w_getenv w "AWARRI_API_KEY")) text
  end.

(** *** Answers of the providers *)

(** The Awarri endpoint answered the request for [text] with [response]. *)
Definition awarri_replies (w : World) (text : string) (response : Response.t)
  : Prop :=
  exists url api_key,
    configured (w_getenv w "AWARRI_TTS_URL") url
    /\ configured (w_getenv w "AWARRI_API_KEY") api_key
    /\ w_post w (PStr url) awarri_headers (awarri_body api_key text) = inr response.

(** The body parsed as JSON, and [base64_data] is not in it. *)
Definition lacks_field (response : Response.t) : Prop :=
  exists result,
    Response.json response = inr result
    /\ contains "base64_data" result = inr false.

(** A message carries the diagnostics of a response: its status code and
    its body text occur in it. *)
Definition carries_diagnostics (msg : string) (response : Response.t) : bool :=
  is_substring (str_int (Response.status_code response)) msg
  && is_substring (Response.text response) msg.

(** What an adapter got from its provider: raw bytes (Spitch) or a value
    that is base64 text already (Awarri). *)
Inductive raw_answer : Type :=
| RawBytes (audio_bytes : bytes)
| Base64Text (audio : pyval).

Definition provider_returns (w : World) (p : provider) (text voice : string)
    (a : raw_answer) : Prop :=
  match p, a with
  | Spitch, RawBytes audio_bytes =>
      exists client response,
        client_in_use w = Some client
        /\ Speech.generate client text "ha" (lower voice) = inr response
        /\ Speech.read response = inr audio_bytes
  | Awarri, Base64Text audio =>
      exists response fields,
        awarri_replies w text response
        /\ Response.status_code response = 200%Z
        /\ Response.json response = inr (PDict fields)
        /\ assoc "base64_data" fields = Some audio
  | _, _ => False
  end.

(** The normalisation the specification asks for: raw bytes are encoded,
    base64 text passes through. *)
Definition normalized (a : raw_answer) : pyval :=
  match a with
  | RawBytes audio_bytes => PStr (b64encode audio_bytes)
  | Base64Text audio => audio
  end.

(** Base64 text: a [str] that is the base64 encoding of some bytes. *)
Definition base64_text (audio : pyval) : Prop :=
  exists audio_bytes, audio = PStr (b64encode audio_bytes).

(** The audio players among a list of events: the places where stored
    audio has been decoded. *)
Definition is_audio (e : event) : bool :=
  match e with
  | StAudio _ _ => true
  | _ => false
  end.

Definition audio_players (evs : list event) : list event := filter is_audio evs.

(** Decode, then encode again. *)
Definition reencode (audio : pyval) : option pyval :=
  match b64decode audio with
  | inr audio_bytes => Some (PStr (b64encode audio_bytes))
  | inl _ => None
  end.

(** The save handler of a provider. *)
Definition on_save (w : World) (p : provider) (d : Current.t) : M unit :=
  match p with
  | Spitch => on_save_spitch w d
  | Awarri => on_save_awarri w d
  end.

(** The generate button of a provider. *)
Definition generate_button (p : provider) : Widgets.button :=
  match p with
  | Spitch => Widgets.GenerateSpitch
  | Awarri => Widgets.GenerateAwarri
  end.

(** The voice a handler stores with a result. *)
Definition stored_voice (p : provider) (voice : string) : pyval :=
  match p with
  | Spitch => PStr voice
  | Awarri => PNone
  end.

(** The text passes the check of the generate buttons. *)
Definition not_blank (text : string) : Prop := strip text <> "".

(** *** Concrete worlds, for the examples *)

Module Sample.

Definition getenv (name : string) : option string :=
  if name =? "SPITCH_API_KEY" then Some "spitch-key"
  else if name =? "AWARRI_TTS_URL" then Some "https://tts.example/hausa"
  else if name =? "AWARRI_API_KEY" then Some "awarri-key"
  else None.

(** A Spitch client that answers every request with [audio]. *)
Definition client (audio : bytes) : Speech.client :=
  Speech.mk_client (fun _ _ _ => inr (Speech.mk_response (inr audio))).

(** A world in which Spitch answers with [audio] and the Awarri endpoint
    with [answer]. *)
Definition world (audio : bytes) (answer : exception + Response.t) : World :=
  {| w_getenv := getenv;
     w_Spitch := inr (client audio);
     w_post := fun _ _ _ => answer;
     w_time := fun n => match n with O => 10%float | S _ => 12.5%float end;
     w_now := fun _ => "2024-05-01 09:30:00";
     w_spitch_cache := None;
     w_assign_widget := None |}.

(** The same world without the Awarri settings. *)
Definition unconfigured (audio : bytes) : World :=
  {| w_getenv := fun name => if name =? "SPITCH_API_KEY" then Some "spitch-key"
                             else None;
     w_Spitch := inr (client audio);
     w_post := fun _ _ _ => inl (Exception "ConnectionError" "unreachable");
     w_time := fun n => match n with O => 10%float | S _ => 12.5%float end;
     w_now := fun _ => "2024-05-01 09:30:00";
     w_spitch_cache := None;
     w_assign_widget := None |}.

(** A world whose Spitch client raises. *)
Definition spitch_down : World :=
  {| w_getenv := getenv;
     w_Spitch := inr (Speech.mk_client
                        (fun _ _ _ => inl (Exception "APIError" "401 Unauthorized")));
     w_post := fun _ _ _ => inl (Exception "ConnectionError" "unreachable");
     w_time := fun n => match n with O => 10%float | S _ => 12.5%float end;
     w_now := fun _ => "2024-05-01 09:30:00";
     w_spitch_cache := None;
     w_assign_widget := None |}.

Definition dq : string := String "034"%char "".
Definition newline : string := String "010"%char "".

(** Awarri answers. *)
Definition ok (audio_field : pyval) (body : string) : exception + Response.t :=
  inr (Response.mk 200 body (inr (PDict [("base64_data", audio_field)]))).

Definition body_with (audio : string) : string :=
  "{" ++ dq ++ "base64_data" ++ dq ++ ": " ++ dq ++ audio ++ dq ++ "}".

Definition answer_ok : exception + Response.t := ok (PStr "QQ==") (body_with "QQ==").

(** A line-terminated base64 string, as many encoders emit it. *)
Definition answer_line_terminated : exception + Response.t :=
  ok (PStr ("QQ==" ++ newline)) (body_with "QQ==\n").

Definition response_no_field : Response.t :=
  Response.mk 200 "{}" (inr (PDict [])).

Definition response_500 : Response.t :=
  Response.mk 500 "internal error"
    (inl (Exception "JSONDecodeError" "Expecting value: line 1 column 1 (char 0)")).

Definition hello : bytes := [x48; x65; x6c; x6c; x6f].

Definition ui (pressed : Widgets.button) : Widgets.t :=
  {| Widgets.text_input := "Sannu da zuwa";
     Widgets.voice_selection := "Amina";
     Widgets.pressed := Some pressed |}.

(** The user generates with Awarri, then saves the result. *)
Definition awarri_world : World := world hello answer_ok.

Definition after_awarri_generate : session_state :=
  run_script awarri_world (ui Widgets.GenerateAwarri) initial_session.

Definition after_awarri_save : session_state :=
  run_script awarri_world (ui Widgets.SaveAwarri) after_awarri_generate.

End Sample.

(** *** Devices for the base64 proofs *)

(** The four 6-bit values of a group of three bytes. *)
Definition sextet1 (a : N) : N := N.shiftr a 2.
Definition sextet2 (a b : N) : N := N.lor (N.shiftl (N.land a 3) 4) (N.shiftr b 4).
Definition sextet3 (b c : N) : N := N.lor (N.shiftl (N.land b 15) 2) (N.shiftr c 6).
Definition sextet4 (c : N) : N := N.land c 63.

(** A bounded universal quantifier that computes. *)
Fixpoint all_below (n : nat) (p : N -> bool) : bool :=
  match n with
  | O => true
  | S k => p (N.of_nat k) && all_below k p
  end.

Definition all_byte_pairs (p : N -> N -> bool) : bool :=
  all_below 256 (fun a => all_below 256 (p a)).

(** *** Vocabulary of the further properties *)

Definition other (p : provider) : provider :=
  match p with
  | Spitch => Awarri
  | Awarri => Spitch
  end.

(** The save button of a provider, and what its handler writes. *)
Definition save_button (p : provider) : Widgets.button :=
  match p with
  | Spitch => Widgets.SaveSpitch
  | Awarri => Widgets.SaveAwarri
  end.

Definition model_name (p : provider) : string :=
  match p with
  | Spitch => "Spitch AI"
  | Awarri => "Awarri"
  end.

Definition saved_voice (p : provider) (d : Current.t) : pyval :=
  match p with
  | Spitch => Current.voice d
  | Awarri => PStr "Default"
  end.

Definition saved_entry (p : provider) (timestamp : string) (d : Current.t)
  : Entry.t :=
  {| Entry.timestamp := timestamp;
     Entry.text := Current.text d;
     Entry.model := model_name p;
     Entry.voice := saved_voice p d;
     Entry.audio_base64 := Current.audio_base64 d;
     Entry.latency := Current.latency d |}.

(** [base64.b64decode] accepts the value. *)
Definition decodable (audio : pyval) : Prop :=
  exists audio_bytes, b64decode audio = inr audio_bytes.

(** A slot can be played: it is empty or its audio decodes. *)
Definition slot_playable (slot : option Current.t) : Prop :=
  forall d, slot = Some d -> decodable (Current.audio_base64 d).

(** The Spitch slot holds an encoding, and every saved audio decodes. *)
Definition playable_invariant (s : session_state) : Prop :=
  (forall d, current_spitch_audio s = Some d ->
             exists audio_bytes,
               Current.audio_base64 d = PStr (b64encode audio_bytes))
  /\ Forall (fun e => decodable (Entry.audio_base64 e)) (audio_history s).

(** The audio player rendered for a stored value, if it decodes. *)
Definition player (audio : pyval) : list event :=
  match b64decode audio with
  | inr audio_bytes => [StAudio audio_bytes "audio/wav"]
  | inl _ => []
  end.

Definition players (history : list Entry.t) : list event :=
  flat_map (fun e => player (Entry.audio_base64 e)) history.

(** From a session with [P], the computation ends in a session with [Q]. *)
Definition establishes {A : Type} (P Q : session_state -> Prop) (c : M A) : Prop :=
  forall r, P (session r) -> Q (session (state_after c r)).

(** The history gained at most one entry, at the front. *)
Definition grew_by_at_most_one (before after : list Entry.t) : Prop :=
  after = before \/ exists e, after = e :: before.

(** More concrete worlds. *)
Module Scenario.

(** No Spitch key in the environment. *)
Definition no_spitch_key : World :=
  {| w_getenv := fun _ => None;
     w_Spitch := inr (Sample.client Sample.hello);
     w_post := fun _ _ _ => inl (Exception "ConnectionError" "unreachable");
     w_time := fun n => match n with O => 10%float | S _ => 12.5%float end;
     w_now := fun _ => "2024-05-01 09:30:00";
     w_spitch_cache := None;
     w_assign_widget := None |}.

Definition unauthorized : exception := Exception "APIError" "401 Unauthorized".
Definition timed_out : exception := Exception "ConnectTimeout" "timed out".

(** The Awarri endpoint cannot be reached. *)
Definition awarri_down : World := Sample.world Sample.hello (inl timed_out).

(** A 200 answer whose JSON is a list that contains the field name. *)
Definition response_list : Response.t :=
  Response.mk 200 "[...]" (inr (PList [PStr "base64_data"; PStr "QQ=="])).

(** Spitch answers with no bytes at all. *)
Definition silent_spitch : World := Sample.world [] Sample.answer_ok.

(** Awarri answers with text that is no base64. *)
Definition awarri_garbled : World :=
  Sample.world Sample.hello (Sample.ok (PStr "Q") (Sample.body_with "Q")).

Definition garbled_slot : Current.t :=
  Current.mk (PStr "Q") 2.5%float "Sannu da zuwa" PNone.

Definition spitch_slot : Current.t :=
  Current.mk (PStr "SGVsbG8=") 2.5%float "Sannu da zuwa" (PStr "Amina").

Definition with_spitch_slot : session_state :=
  {| audio_history := [];
     current_spitch_audio := Some spitch_slot;
     current_awarri_audio := None;
     text_input := "Sannu da zuwa" |}.

Definition with_garbled_slot : session_state :=
  {| audio_history := [];
     current_spitch_audio := None;
     current_awarri_audio := Some garbled_slot;
     text_input := "Sannu da zuwa" |}.

(** Streamlit refuses the assignment to the key of the text area. *)
Definition refusing : World :=
  {| w_getenv := Sample.getenv;
     w_Spitch := inr (Sample.client Sample.hello);
     w_post := fun _ _ _ => Sample.answer_ok;
     w_time := fun n => match n with O => 10%float | S _ => 12.5%float end;
     w_now := fun _ => "2024-05-01 09:30:00";
     w_spitch_cache := None;
     w_assign_widget :=
       Some (Exception "StreamlitAPIException"
               "st.session_state.text_input cannot be modified") |}.

(** The key is set and the constructor would succeed, but the cache holds
    the [None] of an earlier failed initialisation. *)
Definition cached_failure : World :=
  {| w_getenv := Sample.getenv;
     w_Spitch := inr (Sample.client Sample.hello);
     w_post := fun _ _ _ => Sample.answer_ok;
     w_time := fun n => match n with O => 10%float | S _ => 12.5%float end;
     w_now := fun _ => "2024-05-01 09:30:00";
     w_spitch_cache :=
       Some (CachedNone ["Failed to initialize Spitch: str expected, not NoneType"]);
     w_assign_widget := None |}.

(** The key has been removed, but the cache still holds a client. *)
Definition cached_client : World :=
  {| w_getenv := fun _ => None;
     w_Spitch := inl (Exception "SpitchError" "no api key");
     w_post := fun _ _ _ => Sample.answer_ok;
     w_time := fun n => match n with O => 10%float | S _ => 12.5%float end;
     w_now := fun _ => "2024-05-01 09:30:00";
     w_spitch_cache := Some (CachedClient (Sample.client Sample.hello));
     w_assign_widget := None |}.

(** Awarri answers with a number in the audio field. *)
Definition awarri_number : World :=
  Sample.world Sample.hello
    (Sample.ok (PInt 5) ("{" ++ Sample.dq ++ "base64_data" ++ Sample.dq ++ ": 5}")).

Definition idle : Widgets.t :=
  {| Widgets.text_input := "Sannu da zuwa";
     Widgets.voice_selection := "Amina";
     Widgets.pressed := None |}.

End Scenario.

(* ===================================================================== *)
(** ** Properties *)
(* ===================================================================== *)

(** *** HistoryStore *)

(** C3. Saving R1 and then R2 into any history puts R2 at index 0 and R1 at
    index 1, followed by every entry that was there before, in the order
    they had; each save returns normally. The time stamps are the two
    readings of the clock. *)
Theorem add_to_history_twice_newest_first
    (w : World) (r : runtime)
    (text1 model1 : string) (voice1 audio1 : pyval) (latency1 : float)
    (text2 model2 : string) (voice2 audio2 : pyval) (latency2 : float) :
  let save1 := add_to_history w text1 model1 voice1 audio1 latency1 in
  let save2 := add_to_history w text2 model2 voice2 audio2 latency2 in
  let r1 := state_after save1 r in
  let r2 := state_after save2 r1 in
  result_of save1 r = inr tt
  /\ result_of save2 r1 = inr tt
  /\ audio_history (session r2)
     = Entry.mk (w_now w (S (clock r))) text2 model2 voice2 audio2 latency2
       :: Entry.mk (w_now w (clock r)) text1 model1 voice1 audio1 latency1
       :: audio_history (session r).
Proof.
  cbn. repeat split.
Qed.

(** *** SessionState *)

(** C10. [clear_current_display] empties both current slots and leaves the
    history (and everything else in the session) as it was. *)
Theorem clear_current_display_frame (r : runtime) :
  let r' := state_after clear_current_display r in
  result_of clear_current_display r = inr tt
  /\ current_spitch_audio (session r') = None
  /\ current_awarri_audio (session r') = None
  /\ audio_history (session r') = audio_history (session r)
  /\ text_input (session r') = text_input (session r)
  /\ events r' = events r.
Proof.
  cbn. repeat split.
Qed.

(** *** The Awarri adapter *)

(** C5. When the endpoint URL or the API key is missing, the Awarri call
    returns the failure pair, shows the configuration error, and issues no
    HTTP request: the transport is invoked zero times. *)
Theorem awarri_missing_configuration_no_request
    (w : World) (text : string) (r : runtime) :
  missing (w_getenv w "AWARRI_TTS_URL") \/ missing (w_getenv w "AWARRI_API_KEY") ->
  let r' := state_after (generate_awarri_audio w text) r in
  result_of (generate_awarri_audio w text) r = inr (PNone, 0%float)
  /\ events r' = (events r ++ [StError "Awarri API credentials not configured"])%list
  /\ transport_invocations (events r') = transport_invocations (events r)
  /\ session r' = session r.
Proof.
  intros Hmiss.
  assert (Hfalsy :
    negb (truthy (match w_getenv w "AWARRI_TTS_URL" with
                  | Some v => PStr v | None => PNone end))
    || negb (truthy (match w_getenv w "AWARRI_API_KEY" with
                     | Some v => PStr v | None => PNone end)) = true).
  { destruct Hmiss as [[H | H] | [H | H]]; rewrite H; cbn;
      rewrite ?orb_true_r; reflexivity. }
  unfold state_after, result_of, generate_awarri_audio, try_except, bind,
    os_getenv, ret.
  cbn. rewrite Hfalsy. cbn.
  repeat split.
  unfold transport_invocations. rewrite filter_app, length_app. cbn. lia.
Qed.

(** *** What the adapters send *)

Ltac unfold_adapters :=
  unfold state_after, result_of, generate_awarri_audio, generate_spitch_audio,
    initialize_spitch, os_getenv, os_environ_set, time_time, tick,
    requests_post, speech_generate, st_error, emit, replay, try_except, bind,
    lift, raise, ret in *.

(** The ways a client can be in use: handed out by the cache, or built by
    this call. To be used once the adapter is unfolded. *)
Ltac client_cases H :=
  unfold client_in_use in H;
  destruct (w_spitch_cache _) as [[? | ?] |] eqn:?;
  [ | discriminate H
    | destruct (w_getenv _ "SPITCH_API_KEY") eqn:?;
      [ destruct (w_Spitch _) eqn:?; [discriminate H |] | discriminate H ] ];
  injection H as H; subst; cbn.

(** Case analysis on the innermost scrutinee, which is an answer of the
    outside world or a test on one. *)
Ltac break_match :=
  match goal with
  | |- context [match ?x with _ => _ end] =>
      lazymatch x with
      | context [match _ with _ => _ end] => fail
      | _ => destruct x eqn:?
      end
  end.

Lemma lower_voice_options :
  map lower voice_options = ["hasan"; "amina"; "zainab"; "aliyu"].
Proof. reflexivity. Qed.

Lemma spitch_generate_events
    (w : World) (text voice : string) (client : Speech.client) (r : runtime) :
  client_in_use w = Some client ->
  exists new,
    events (state_after (generate_spitch_audio w text voice) r)
    = (events r ++ new)%list
    /\ provider_calls new = [spitch_request text voice].
Proof.
  intros Hclient. unfold_adapters. client_cases Hclient;
    (destruct (Speech.generate client text "ha" (lower voice)) as [e | resp]; cbn;
     [ eexists; rewrite <- app_assoc; split; reflexivity
     | destruct (Speech.read resp) as [e | audio_bytes]; cbn;
       [ eexists; rewrite <- app_assoc; split; reflexivity
       | eexists; split; reflexivity ] ]).
Qed.

Lemma awarri_generate_events
    (w : World) (text url api_key : string) (r : runtime) :
  configured (w_getenv w "AWARRI_TTS_URL") url ->
  configured (w_getenv w "AWARRI_API_KEY") api_key ->
  exists new,
    events (state_after (generate_awarri_audio w text) r)
    = (events r ++ new)%list
    /\ provider_calls new = [awarri_request url api_key text].
Proof.
  intros [Hurl Hu] [Hkey Hk]. unfold_adapters. rewrite Hurl, Hkey.
  cbn.
  rewrite (proj2 (String.eqb_neq url "") Hu), (proj2 (String.eqb_neq api_key "") Hk).
  cbn.
  repeat (break_match; cbn);
    try (eexists; rewrite <- ?app_assoc; split; reflexivity).
Qed.

(** *** base64: decoding undoes encoding *)

Section Base64Facts.

Lemma all_below_spec (n : nat) (p : N -> bool) :
  all_below n p = true -> forall k, (k < N.of_nat n)%N -> p k = true.
Proof.
  induction n as [| n IH]; intros Hall k Hk.
  - lia.
  - cbn [all_below] in Hall. apply andb_true_iff in Hall as [Hn Hrest].
    destruct (N.eq_dec k (N.of_nat n)) as [-> | Hne]; [exact Hn |].
    apply IH; [exact Hrest | lia].
Qed.

Lemma to_N_lt_256 (b : byte) : (Byte.to_N b < N.of_nat 256)%N.
Proof. pose proof (Byte.to_N_bounded b). cbn. lia. Qed.

Lemma all_byte_pairs_spec (p : N -> N -> bool) :
  all_byte_pairs p = true ->
  forall a b : byte, p (Byte.to_N a) (Byte.to_N b) = true.
Proof.
  intros Hall a b.
  apply (all_below_spec 256 (p (Byte.to_N a))); [| apply to_N_lt_256].
  apply (all_below_spec 256 (fun a => all_below 256 (p a)) Hall).
  apply to_N_lt_256.
Qed.

Lemma byte_of_to_N (b : byte) : byte_of_N (Byte.to_N b) = b.
Proof.
  unfold byte_of_N. rewrite N.mod_small by (pose proof (to_N_lt_256 b); cbn in *; lia).
  rewrite Byte.of_to_N. reflexivity.
Qed.

(** The two tables are inverse on 6-bit values, and no alphabet character
    is the padding character or outside ASCII. *)
Lemma table_facts (i : N) :
  (i < 64)%N ->
  Ascii.eqb (table_b2a_base64 i) BASE64_PAD = false
  /\ table_a2b_base64 (table_b2a_base64 i) = i
  /\ (N_of_ascii (table_b2a_base64 i) <? 128)%N = true.
Proof.
  intros Hi.
  assert (Hall : all_below 64
            (fun i => negb (Ascii.eqb (table_b2a_base64 i) BASE64_PAD)
                      && (table_a2b_base64 (table_b2a_base64 i) =? i)%N
                      && (N_of_ascii (table_b2a_base64 i) <? 128)%N) = true)
    by (vm_compute; reflexivity).
  pose proof (all_below_spec 64 _ Hall i Hi) as H. cbv beta in H.
  apply andb_true_iff in H as [H H3]. apply andb_true_iff in H as [H1 H2].
  apply negb_true_iff in H1. apply N.eqb_eq in H2. auto.
Qed.

(** Range of the 6-bit values. *)
Lemma sextet_ranges (a b : byte) :
  let x := Byte.to_N a in
  let y := Byte.to_N b in
  (sextet1 x < 64 /\ sextet2 x y < 64 /\ sextet3 x y < 64 /\ sextet4 x < 64
   /\ N.shiftl (N.land x 3) 4 < 64 /\ N.shiftl (N.land x 15) 2 < 64)%N.
Proof.
  assert (Hall : all_byte_pairs
            (fun x y => (sextet1 x <? 64) && (sextet2 x y <? 64)
                        && (sextet3 x y <? 64) && (sextet4 x <? 64)
                        && (N.shiftl (N.land x 3) 4 <? 64)
                        && (N.shiftl (N.land x 15) 2 <? 64))%N = true)
    by (vm_compute; reflexivity).
  pose proof (all_byte_pairs_spec _ Hall a b) as H. cbv beta in H.
  repeat (apply andb_true_iff in H as [H ?]).
  repeat match goal with Hx : (_ <? _)%N = true |- _ => apply N.ltb_lt in Hx end.
  cbv zeta. repeat split; assumption.
Qed.

(** The bit arithmetic of one group, two bytes at a time. *)
Lemma group_arith (a b : byte) :
  let x := Byte.to_N a in
  let y := Byte.to_N b in
  N.lor (N.shiftl (sextet1 x) 2) (N.shiftr (sextet2 x y) 4) = x
  /\ N.land (sextet2 x y) 15 = N.shiftr y 4
  /\ N.lor (N.shiftl (N.shiftr x 4) 4) (N.shiftr (sextet3 x y) 2) = x
  /\ N.land (sextet3 x y) 3 = N.shiftr y 6
  /\ N.lor (N.shiftl (N.shiftr x 6) 6) (sextet4 x) = x
  /\ N.lor (N.shiftl (sextet1 x) 2) (N.shiftr (N.shiftl (N.land x 3) 4) 4) = x
  /\ N.lor (N.shiftl (N.shiftr x 4) 4) (N.shiftr (N.shiftl (N.land x 15) 2) 2) = x.
Proof.
  assert (Hall : all_byte_pairs
            (fun x y =>
               (N.lor (N.shiftl (sextet1 x) 2) (N.shiftr (sextet2 x y) 4) =? x)
               && (N.land (sextet2 x y) 15 =? N.shiftr y 4)
               && (N.lor (N.shiftl (N.shiftr x 4) 4) (N.shiftr (sextet3 x y) 2) =? x)
               && (N.land (sextet3 x y) 3 =? N.shiftr y 6)
               && (N.lor (N.shiftl (N.shiftr x 6) 6) (sextet4 x) =? x)
               && (N.lor (N.shiftl (sextet1 x) 2)
                     (N.shiftr (N.shiftl (N.land x 3) 4) 4) =? x)
               && (N.lor (N.shiftl (N.shiftr x 4) 4)
                     (N.shiftr (N.shiftl (N.land x 15) 2) 2) =? x))%N = true)
    by (vm_compute; reflexivity).
  pose proof (all_byte_pairs_spec _ Hall a b) as H. cbv beta in H.
  repeat (apply andb_true_iff in H as [H ?]).
  repeat match goal with Hx : (_ =? _)%N = true |- _ => apply N.eqb_eq in Hx end.
  cbv zeta. repeat split; assumption.
Qed.

(** One step of the decoder on an alphabet character. *)
Lemma a2b_loop_data (i : N) (rest : list ascii) (quad_pos leftchar pads : N)
    (out : bytes) :
  (i < 64)%N ->
  a2b_loop (table_b2a_base64 i :: rest) quad_pos leftchar pads out
  = if (quad_pos =? 0)%N then a2b_loop rest 1%N i 0%N out
    else if (quad_pos =? 1)%N then
      a2b_loop rest 2%N (N.land i 15) 0%N
        (out ++ [byte_of_N (N.lor (N.shiftl leftchar 2) (N.shiftr i 4))])%list
    else if (quad_pos =? 2)%N then
      a2b_loop rest 3%N (N.land i 3) 0%N
        (out ++ [byte_of_N (N.lor (N.shiftl leftchar 4) (N.shiftr i 2))])%list
    else
      a2b_loop rest 0%N 0%N 0%N
        (out ++ [byte_of_N (N.lor (N.shiftl leftchar 6) i)])%list.
Proof.
  intros Hi. destruct (table_facts i Hi) as (Hpad & Hinv & _).
  cbn [a2b_loop]. rewrite Hpad. cbv zeta. rewrite Hinv.
  destruct (N.leb_spec 64 i) as [Hge | _]; [lia | reflexivity].
Qed.

(** One step of the decoder on the padding character. *)
Lemma a2b_loop_pad (rest : list ascii) (quad_pos leftchar pads : N) (out : bytes) :
  a2b_loop (BASE64_PAD :: rest) quad_pos leftchar pads out
  = if (2 <=? quad_pos)%N then
      if (4 <=? quad_pos + (pads + 1))%N then inr out
      else a2b_loop rest quad_pos leftchar (pads + 1)%N out
    else a2b_loop rest quad_pos leftchar pads out.
Proof. reflexivity. Qed.

(** A full group of four characters gives back its three bytes and leaves
    the decoder at the start of a group. *)
Lemma a2b_loop_group (a b c : byte) (rest : list ascii) (leftchar pads : N)
    (out : bytes) :
  let x := Byte.to_N a in
  let y := Byte.to_N b in
  let z := Byte.to_N c in
  a2b_loop (table_b2a_base64 (sextet1 x) :: table_b2a_base64 (sextet2 x y)
            :: table_b2a_base64 (sextet3 y z) :: table_b2a_base64 (sextet4 z)
            :: rest) 0%N leftchar pads out
  = a2b_loop rest 0%N 0%N 0%N (out ++ [a; b; c])%list.
Proof.
  cbv zeta.
  destruct (sextet_ranges a b) as (R1 & R2 & _).
  destruct (sextet_ranges b c) as (_ & _ & R3 & _).
  destruct (sextet_ranges c c) as (_ & _ & _ & R4 & _).
  destruct (group_arith a b) as (A1 & A2 & _).
  destruct (group_arith b c) as (_ & _ & A3 & A4 & _).
  destruct (group_arith c c) as (_ & _ & _ & _ & A5 & _).
  cbv zeta in *.
  rewrite (a2b_loop_data _ _ _ _ _ _ R1). cbn [N.eqb].
  rewrite (a2b_loop_data _ _ _ _ _ _ R2). cbn [N.eqb Pos.eqb].
  rewrite A1, A2, byte_of_to_N.
  rewrite (a2b_loop_data _ _ _ _ _ _ R3). cbn [N.eqb Pos.eqb].
  rewrite A3, A4, byte_of_to_N.
  rewrite (a2b_loop_data _ _ _ _ _ _ R4). cbn [N.eqb Pos.eqb].
  rewrite A5, byte_of_to_N.
  rewrite <- !app_assoc. reflexivity.
Qed.

(** Induction three elements at a time. *)
Lemma list_ind3 {A : Type} (P : list A -> Prop) :
  P [] ->
  (forall a, P [a]) ->
  (forall a b, P [a; b]) ->
  (forall a b c rest, P rest -> P (a :: b :: c :: rest)) ->
  forall l, P l.
Proof.
  intros H0 H1 H2 H3.
  assert (Hall : forall l, P l /\ (forall a, P (a :: l)) /\ (forall a b, P (a :: b :: l))).
  { induction l as [| x l (IH0 & IH1 & IH2)].
    - auto.
    - repeat split; auto. }
  intros l. apply Hall.
Qed.

(** The decoder run on an encoding appends the encoded bytes. *)
Lemma a2b_loop_b2a (data : bytes) :
  forall (leftchar pads : N) (out : bytes),
    a2b_loop (b2a_base64 data) 0%N leftchar pads out = inr (out ++ data)%list.
Proof.
  induction data as [| a | a b | a b c rest IH] using list_ind3;
    intros leftchar pads out.
  - cbn. rewrite app_nil_r. reflexivity.
  - destruct (sextet_ranges a a) as (R1 & _ & _ & _ & R5 & _).
    destruct (group_arith a a) as (_ & _ & _ & _ & _ & A6 & _).
    cbv zeta in *. cbn [b2a_base64]. fold (sextet1 (Byte.to_N a)).
    rewrite (a2b_loop_data _ _ _ _ _ _ R1). cbn [N.eqb].
    rewrite (a2b_loop_data _ _ _ _ _ _ R5). cbn [N.eqb Pos.eqb].
    rewrite A6, byte_of_to_N.
    rewrite !a2b_loop_pad. reflexivity.
  - destruct (sextet_ranges a b) as (R1 & R2 & _).
    destruct (sextet_ranges b b) as (_ & _ & _ & _ & _ & R6).
    destruct (group_arith a b) as (A1 & A2 & _).
    destruct (group_arith b b) as (_ & _ & _ & _ & _ & _ & A7).
    cbv zeta in *. cbn [b2a_base64].
    fold (sextet1 (Byte.to_N a)). fold (sextet2 (Byte.to_N a) (Byte.to_N b)).
    rewrite (a2b_loop_data _ _ _ _ _ _ R1). cbn [N.eqb].
    rewrite (a2b_loop_data _ _ _ _ _ _ R2). cbn [N.eqb Pos.eqb].
    rewrite A1, A2, byte_of_to_N.
    rewrite (a2b_loop_data _ _ _ _ _ _ R6). cbn [N.eqb Pos.eqb].
    rewrite A7, byte_of_to_N.
    rewrite a2b_loop_pad. cbn. rewrite <- app_assoc. reflexivity.
  - cbn [b2a_base64].
    fold (sextet1 (Byte.to_N a)). fold (sextet2 (Byte.to_N a) (Byte.to_N b)).
    fold (sextet3 (Byte.to_N b) (Byte.to_N c)). fold (sextet4 (Byte.to_N c)).
    rewrite a2b_loop_group, IH, <- app_assoc. reflexivity.
Qed.

(** Every character of an encoding is ASCII. *)
Lemma b2a_base64_ascii (data : bytes) :
  forallb (fun ch => (N_of_ascii ch <? 128)%N) (b2a_base64 data) = true.
Proof.
  induction data as [| a | a b | a b c rest IH] using list_ind3.
  - reflexivity.
  - destruct (sextet_ranges a a) as (R1 & _ & _ & _ & R5 & _). cbv zeta in *.
    cbn [b2a_base64 forallb]. fold (sextet1 (Byte.to_N a)).
    rewrite (proj2 (proj2 (table_facts _ R1))), (proj2 (proj2 (table_facts _ R5))).
    reflexivity.
  - destruct (sextet_ranges a b) as (R1 & R2 & _).
    destruct (sextet_ranges b b) as (_ & _ & _ & _ & _ & R6). cbv zeta in *.
    cbn [b2a_base64 forallb].
    fold (sextet1 (Byte.to_N a)). fold (sextet2 (Byte.to_N a) (Byte.to_N b)).
    rewrite (proj2 (proj2 (table_facts _ R1))), (proj2 (proj2 (table_facts _ R2))),
      (proj2 (proj2 (table_facts _ R6))).
    reflexivity.
  - destruct (sextet_ranges a b) as (R1 & R2 & _).
    destruct (sextet_ranges b c) as (_ & _ & R3 & _).
    destruct (sextet_ranges c c) as (_ & _ & _ & R4 & _). cbv zeta in *.
    cbn [b2a_base64 forallb].
    fold (sextet1 (Byte.to_N a)). fold (sextet2 (Byte.to_N a) (Byte.to_N b)).
    fold (sextet3 (Byte.to_N b) (Byte.to_N c)). fold (sextet4 (Byte.to_N c)).
    rewrite (proj2 (proj2 (table_facts _ R1))), (proj2 (proj2 (table_facts _ R2))),
      (proj2 (proj2 (table_facts _ R3))), (proj2 (proj2 (table_facts _ R4))), IH.
    reflexivity.
Qed.

(** [b64decode(b64encode(data)) == data]. *)
Lemma b64decode_b64encode (data : bytes) :
  b64decode (PStr (b64encode data)) = inr data.
Proof.
  unfold b64decode, b64encode, is_ascii, a2b_base64.
  rewrite list_ascii_of_string_of_list_ascii, b2a_base64_ascii.
  apply (a2b_loop_b2a data 0%N 0%N []).
Qed.

End Base64Facts.

(** *** The generate handlers *)

Arguments b64encode : simpl never.
Arguments strip : simpl never.
Arguments lower : simpl never.

Lemma skipn_length_app {A : Type} (l new : list A) :
  skipn (length l) (l ++ new) = new.
Proof.
  rewrite skipn_app, skipn_all, Nat.sub_diag. reflexivity.
Qed.

Ltac unfold_handlers :=
  unfold reports_error, reports_success, new_events, on_generate_spitch,
    on_generate_awarri, when, set_current_spitch_audio,
    set_current_awarri_audio, get_session, put_session, st_success,
    st_warning in *;
  unfold_adapters.

(** The events added are what follows the old ones. *)
Ltac new_events_simpl :=
  cbn [events session clock] in *;
  rewrite <- ?app_assoc in *;
  rewrite ?skipn_length_app in *;
  cbn [app] in *.

Ltac no_such_event :=
  match goal with
  | H : exists _, In _ _ |- _ =>
      let x := fresh in
      destruct H as [x H];
      repeat (apply in_app_or in H; destruct H as [H | H]);
      first [ apply in_map_iff in H; destruct H as (? & H & _); discriminate H
            | cbn in H; intuition discriminate ]
  end.

(** Case analysis over every path of a handler. *)
Ltac script_cases :=
  repeat (break_match; cbn in *);
  repeat match goal with
         | H : (_, _) = (_, _) |- _ => inversion H; clear H; subst
         end;
  cbn in *.

Lemma spitch_error_keeps_session (w : World) (text voice : string) (r : runtime) :
  reports_error (generate_spitch_audio w text voice) r ->
  session (state_after (on_generate_spitch w text voice) r) = session r.
Proof.
  unfold_handlers. cbn. intros Herr.
  script_cases; try reflexivity; try discriminate.
  all: try (exfalso; new_events_simpl; no_such_event).
Qed.

Lemma awarri_error_keeps_session (w : World) (text : string) (r : runtime) :
  reports_error (generate_awarri_audio w text) r ->
  session (state_after (on_generate_awarri w text) r) = session r.
Proof.
  unfold_handlers. cbn. intros Herr.
  script_cases; try reflexivity; try discriminate.
  all: try (exfalso; new_events_simpl; no_such_event).
Qed.

(** *** Composition rules *)

Lemma state_after_bind {A B : Type} (c : M A) (k : A -> M B) (r : runtime) :
  state_after (bind c k) r
  = match result_of c r with
    | inl _ => state_after c r
    | inr x => state_after (k x) (state_after c r)
    end.
Proof.
  unfold state_after, result_of, bind. destruct (c r) as [[e | x] r']; reflexivity.
Qed.

Lemma stable_ret {A : Type} (x : A) : stable (ret x).
Proof. intros r. reflexivity. Qed.

Lemma stable_raise {A : Type} (e : exception) : stable (@raise A e).
Proof. intros r. reflexivity. Qed.

Lemma stable_lift {A : Type} (x : exception + A) : stable (lift x).
Proof. destruct x; intros r; reflexivity. Qed.

Lemma stable_emit (e : event) : stable (emit e).
Proof. intros r. reflexivity. Qed.

Lemma stable_tick : stable tick.
Proof. intros r. reflexivity. Qed.

Lemma stable_get_session : stable get_session.
Proof. intros r. reflexivity. Qed.

Lemma stable_st_rerun : stable st_rerun.
Proof. intros r. reflexivity. Qed.

Lemma stable_bind {A B : Type} (c : M A) (k : A -> M B) :
  stable c -> (forall x, stable (k x)) -> stable (bind c k).
Proof.
  intros Hc Hk r. rewrite state_after_bind.
  destruct (result_of c r); [apply Hc | rewrite Hk; apply Hc].
Qed.

Lemma stable_try_except {A : Type} (c : M A) (h : exception -> M A) :
  stable c -> (forall e, stable (h e)) -> stable (try_except c h).
Proof.
  intros Hc Hh r. specialize (Hc r). unfold state_after, try_except in *.
  destruct (c r) as [[[e |] | x] r']; cbn in *; try exact Hc.
  rewrite <- Hc. apply (Hh e r').
Qed.

Lemma stable_when (b : bool) (c : M unit) : stable c -> stable (when b c).
Proof. intros Hc. destruct b; [exact Hc | apply stable_ret]. Qed.

Lemma stable_for_each {A : Type} (l : list A) (body : A -> M unit) :
  (forall x, stable (body x)) -> stable (for_each l body).
Proof.
  intros Hbody. induction l as [| x l IH]; cbn [for_each].
  - apply stable_ret.
  - apply stable_bind; [apply Hbody | intros _; exact IH].
Qed.

Create HintDb stable.
#[local] Hint Resolve stable_ret stable_raise stable_lift stable_emit stable_tick
  stable_get_session stable_st_rerun stable_bind stable_try_except stable_when
  stable_for_each : stable.

Ltac stable_tac :=
  repeat first
    [ progress intros
    | match goal with
      | |- stable (match ?x with _ => _ end) => destruct x
      end
    | solve [auto with stable]
    | apply stable_bind
    | apply stable_try_except
    | apply stable_when
    | apply stable_for_each ].

Lemma stable_generate_spitch_audio (w : World) (text voice : string) :
  stable (generate_spitch_audio w text voice).
Proof.
  unfold generate_spitch_audio, initialize_spitch, os_getenv, os_environ_set,
    time_time, speech_generate, st_error.
  stable_tac.
Qed.

Lemma stable_generate_awarri_audio (w : World) (text : string) :
  stable (generate_awarri_audio w text).
Proof.
  unfold generate_awarri_audio, os_getenv, time_time, requests_post, st_error.
  stable_tac.
Qed.

Lemma stable_display_audio_from_base64 (audio_base64 : pyval) :
  stable (display_audio_from_base64 audio_base64).
Proof.
  unfold display_audio_from_base64, st_audio. stable_tac.
Qed.

Lemma stable_generation_history : stable generation_history.
Proof.
  unfold generation_history, st_info.
  apply stable_bind; [apply stable_get_session | intros s].
  destruct (audio_history s); [apply stable_emit |].
  apply stable_for_each. intros entry. apply stable_display_audio_from_base64.
Qed.

Section Preservation.

Variable I : session_state -> Prop.

Lemma preserves_stable {A : Type} (c : M A) : stable c -> preserves I c.
Proof. intros Hc r HI. rewrite Hc. exact HI. Qed.

Lemma preserves_bind {A B : Type} (c : M A) (k : A -> M B) :
  preserves I c -> (forall x, preserves I (k x)) -> preserves I (bind c k).
Proof.
  intros Hc Hk r HI. rewrite state_after_bind.
  destruct (result_of c r); [apply Hc, HI | apply Hk, Hc, HI].
Qed.

Lemma preserves_when (b : bool) (c : M unit) :
  preserves I c -> preserves I (when b c).
Proof.
  intros Hc. destruct b; [exact Hc | apply preserves_stable, stable_ret].
Qed.

End Preservation.

(** *** The voice invariant *)

Ltac voice_invariant_tac :=
  unfold voice_invariant, slot_voice_ok in *; cbn in *;
  repeat match goal with
         | H : _ /\ _ |- _ => destruct H
         end;
  repeat split; try assumption;
  try (intros ? [=]; subst; cbn; eauto; fail);
  try (constructor; [unfold entry_voice_ok; cbn; eauto | assumption]).

Lemma voice_invariant_on_clear (w : World) :
  preserves voice_invariant (on_clear w).
Proof.
  intros r HI. unfold on_clear, set_text_input, clear_current_display, st_rerun.
  unfold_handlers. cbn.
  script_cases; voice_invariant_tac.
Qed.

Lemma voice_invariant_on_generate_spitch (w : World) (text voice : string) :
  In voice voice_options ->
  preserves voice_invariant (on_generate_spitch w text voice).
Proof.
  intros Hvoice r HI. unfold_handlers. cbn.
  script_cases; voice_invariant_tac.
Qed.

Lemma voice_invariant_on_generate_awarri (w : World) (text : string) :
  preserves voice_invariant (on_generate_awarri w text).
Proof.
  intros r HI. unfold_handlers. cbn.
  script_cases; voice_invariant_tac.
Qed.

Ltac unfold_display :=
  unfold current_generation, generation_history, display_audio_from_base64,
    on_save_spitch, on_save_awarri, add_to_history, datetime_now_strftime,
    st_audio, st_info, st_rerun in *;
  unfold_handlers.

Lemma voice_invariant_current_generation (w : World) (ui : Widgets.t) :
  preserves voice_invariant (current_generation w ui).
Proof.
  intros r HI. unfold_display. cbn.
  script_cases; voice_invariant_tac.
Qed.

Lemma voice_invariant_main (w : World) (ui : Widgets.t) :
  In (Widgets.voice_selection ui) voice_options ->
  preserves voice_invariant (main w ui).
Proof.
  intros Hvoice. unfold main.
  apply preserves_bind.
  { intros r HI. unfold register_text_input. cbn. voice_invariant_tac. }
  intros _. apply preserves_bind.
  { apply preserves_when, voice_invariant_on_clear. }
  intros _. apply preserves_bind.
  { apply preserves_when, voice_invariant_on_generate_spitch, Hvoice. }
  intros _. apply preserves_bind.
  { apply preserves_when, voice_invariant_on_generate_awarri. }
  intros _. apply preserves_bind.
  { apply voice_invariant_current_generation. }
  intros _. apply preserves_stable, stable_generation_history.
Qed.

(** C2, as the code has it. In every session the script can reach: a
    result in the Spitch slot carries one of the offered voices (not
    [None]), a result in the Awarri slot carries [None]; in the history a
    Spitch entry carries one of the offered voices and an Awarri entry
    carries the string "Default". *)
Theorem reachable_voice_invariant (s : session_state) :
  reachable s -> voice_invariant s.
Proof.
  induction 1 as [| s s' _ IH Hstep].
  - split; [split; intros d; discriminate | constructor].
  - destruct Hstep as [w ui s [Hvoice _]].
    apply (voice_invariant_main w ui Hvoice (start s) IH).
Qed.

Lemma sample_ui_valid (b : Widgets.button) : valid_widgets (Sample.ui b).
Proof.
  split; [cbn; tauto | cbn; unfold max_chars; lia].
Qed.

Lemma after_awarri_save_reachable : reachable Sample.after_awarri_save.
Proof.
  eapply reachable_step; [eapply reachable_step; [apply reachable_init |] |];
    apply step_run, sample_ui_valid.
Qed.

(** C2 fails as stated: after an Awarri result is generated and saved, the
    history holds an Awarri entry whose voice is the string "Default", not
    [None]. *)
Lemma awarri_history_voice_not_null :
  reachable Sample.after_awarri_save
  /\ current_awarri_audio Sample.after_awarri_generate
     = Some (Current.mk (PStr "QQ==") 2.5%float "Sannu da zuwa" PNone)
  /\ audio_history Sample.after_awarri_save
     = [Entry.mk "2024-05-01 09:30:00" "Sannu da zuwa" "Awarri"
          (PStr "Default") (PStr "QQ==") 2.5%float]
  /\ PStr "Default" <> PNone.
Proof.
  split; [apply after_awarri_save_reachable |].
  split; [vm_compute; reflexivity |].
  split; [vm_compute; reflexivity | discriminate].
Qed.

Lemma reachable_voice_invariant_witness :
  reachable Sample.after_awarri_save /\ voice_invariant Sample.after_awarri_save.
Proof.
  pose proof after_awarri_save_reachable as Hreach.
  split; [exact Hreach |].
  apply (reachable_voice_invariant Sample.after_awarri_save Hreach).
Defined.

(** *** Failures *)

(** C1. Whenever the adapter of a provider fails (it shows an error), the
    button handler leaves the session as it was: the slot of that provider
    keeps its value, and so do the other slot and the history. *)
Theorem failed_generation_keeps_session
    (w : World) (p : provider) (text voice : string) (r : runtime) :
  reports_error (adapter w p text voice) r ->
  let s' := session (state_after (on_generate w p text voice) r) in
  current p s' = current p (session r)
  /\ audio_history s' = audio_history (session r)
  /\ s' = session r.
Proof.
  intros Herr.
  assert (Hsame : session (state_after (on_generate w p text voice) r) = session r).
  { destruct p; cbn [adapter on_generate] in *.
    - apply spitch_error_keeps_session, Herr.
    - apply awarri_error_keeps_session, Herr. }
  cbv zeta. rewrite Hsame. repeat split.
Qed.

Lemma failed_generation_keeps_session_witness :
  let w := Sample.world Sample.hello (inr Sample.response_500) in
  let r := start Sample.after_awarri_generate in
  reports_error (adapter w Awarri "Sannu da zuwa" "Amina") r
  /\ current Awarri (session (state_after (on_generate w Awarri "Sannu da zuwa" "Amina") r))
     = Some (Current.mk (PStr "QQ==") 2.5%float "Sannu da zuwa" PNone)
  /\ audio_history (session (state_after (on_generate w Awarri "Sannu da zuwa" "Amina") r))
     = [].
Proof.
  cbv zeta.
  assert (Herr : reports_error
            (adapter (Sample.world Sample.hello (inr Sample.response_500))
               Awarri "Sannu da zuwa" "Amina")
            (start Sample.after_awarri_generate)).
  { exists "Awarri API error: 500 - internal error". vm_compute. auto. }
  split; [exact Herr |].
  destruct (failed_generation_keeps_session
              (Sample.world Sample.hello (inr Sample.response_500))
              Awarri "Sannu da zuwa" "Amina"
              (start Sample.after_awarri_generate) Herr) as (Hslot & Hhist & _).
  split; [rewrite Hslot | rewrite Hhist]; vm_compute; reflexivity.
Defined.

(** *** Requests *)

(** C9. Whenever the provider can be called, its adapter makes exactly one
    provider call: for Spitch, [generate] with the text, the language "ha"
    and the voice in lower case; for Awarri, one POST to the configured URL
    with the two JSON headers and a body of exactly the three fields
    [api_key], [audio_txt] (the text) and [lang] = "hausa". *)
Theorem adapter_sends_one_fixed_request
    (w : World) (p : provider) (text voice : string) (r : runtime) :
  available w p ->
  provider_calls (new_events (adapter w p text voice) r)
  = [request_of w p text voice].
Proof.
  intros Havail. unfold new_events. destruct p; cbn [adapter request_of available] in *.
  - destruct Havail as (client & Hclient).
    destruct (spitch_generate_events w text voice client r Hclient)
      as (new & -> & Hcalls).
    rewrite skipn_length_app. exact Hcalls.
  - destruct Havail as (url & api_key & Hurl & Hkey).
    destruct (awarri_generate_events w text url api_key r Hurl Hkey)
      as (new & -> & Hcalls).
    rewrite skipn_length_app, Hcalls.
    destruct Hurl as [-> _], Hkey as [-> _]. reflexivity.
Qed.

Lemma adapter_sends_one_fixed_request_witness :
  let w := Sample.awarri_world in
  (available w Spitch /\ available w Awarri)
  /\ provider_calls (new_events (adapter w Spitch "Sannu da zuwa" "Amina")
                       (start initial_session))
     = [SpeechGenerate "Sannu da zuwa" "ha" "amina"]
  /\ provider_calls (new_events (adapter w Awarri "Sannu da zuwa" "Amina")
                       (start initial_session))
     = [HttpPost (PStr "https://tts.example/hausa")
          [("accept", "application/json"); ("Content-Type", "application/json")]
          (PDict [("api_key", PStr "awarri-key");
                  ("audio_txt", PStr "Sannu da zuwa");
                  ("lang", PStr "hausa")])].
Proof.
  cbv zeta.
  assert (Hs : available Sample.awarri_world Spitch).
  { exists (Sample.client Sample.hello). reflexivity. }
  assert (Ha : available Sample.awarri_world Awarri).
  { exists "https://tts.example/hausa", "awarri-key".
    split; (split; [reflexivity | discriminate]). }
  split; [split; assumption |].
  split.
  - rewrite (adapter_sends_one_fixed_request Sample.awarri_world Spitch
               "Sannu da zuwa" "Amina" (start initial_session) Hs).
    reflexivity.
  - rewrite (adapter_sends_one_fixed_request Sample.awarri_world Awarri
               "Sannu da zuwa" "Amina" (start initial_session) Ha).
    reflexivity.
Defined.

Lemma awarri_missing_configuration_no_request_witness :
  let w := Sample.unconfigured Sample.hello in
  let c := generate_awarri_audio w "Sannu da zuwa" in
  (missing (w_getenv w "AWARRI_TTS_URL") \/ missing (w_getenv w "AWARRI_API_KEY"))
  /\ result_of c (start initial_session) = inr (PNone, 0%float)
  /\ events (state_after c (start initial_session))
     = [StError "Awarri API credentials not configured"]
  /\ transport_invocations (events (state_after c (start initial_session))) = 0.
Proof.
  cbv zeta.
  assert (Hmiss : missing (w_getenv (Sample.unconfigured Sample.hello) "AWARRI_TTS_URL")
                  \/ missing (w_getenv (Sample.unconfigured Sample.hello) "AWARRI_API_KEY")).
  { left. left. reflexivity. }
  split; [exact Hmiss |].
  destruct (awarri_missing_configuration_no_request
              (Sample.unconfigured Sample.hello) "Sannu da zuwa"
              (start initial_session) Hmiss) as (Hres & Hevs & Hcount & _).
  split; [exact Hres |]. split; [exact Hevs |]. rewrite Hcount. reflexivity.
Defined.

(** *** Error messages of the Awarri adapter *)

Lemma substring_prefix (x post : string) :
  substring 0 (String.length x) (x ++ post) = x.
Proof.
  induction x as [| c x IH]; cbn.
  - destruct post; reflexivity.
  - rewrite IH. reflexivity.
Qed.

Lemma substring_middle (pre x post : string) :
  substring (String.length pre) (String.length x) (pre ++ x ++ post) = x.
Proof.
  induction pre as [| c pre IH]; cbn; [apply substring_prefix | exact IH].
Qed.

Lemma is_substring_middle (pre x post : string) :
  is_substring x (pre ++ x ++ post) = true.
Proof.
  unfold is_substring.
  destruct (String.index 0 x (pre ++ x ++ post)) eqn:Hindex; [reflexivity |].
  exfalso. destruct x as [| c x].
  - apply index_correct4 in Hindex. lia.
  - apply (index_correct3 0 (String.length pre) _ _ Hindex);
      [discriminate | lia | apply substring_middle].
Qed.

Lemma string_app_assoc (a b c : string) : (a ++ b) ++ c = a ++ b ++ c.
Proof. induction a as [| ch a IH]; cbn; congruence. Qed.

Lemma string_app_empty_r (a : string) : a ++ "" = a.
Proof. induction a as [| ch a IH]; cbn; congruence. Qed.

Lemma api_error_carries_diagnostics (response : Response.t) :
  carries_diagnostics
    ("Awarri API error: " ++ str_int (Response.status_code response)
     ++ " - " ++ Response.text response) response = true.
Proof.
  unfold carries_diagnostics. apply andb_true_iff. split.
  - apply is_substring_middle.
  - pose proof (is_substring_middle
                  ("Awarri API error: " ++ str_int (Response.status_code response) ++ " - ")
                  (Response.text response) "") as H.
    rewrite string_app_empty_r, !string_app_assoc in H. exact H.
Qed.

(** C4, as the code has it. When the Awarri endpoint answers with a status
    other than 200, or with 200 and a JSON body without [base64_data], the
    adapter returns the failure pair (no exception, no audio) and shows one
    error. For a status other than 200 the message carries the status code
    and the body text; for a missing field it is the fixed text
    "No 'base64_data' in Awarri response". *)
Theorem awarri_bad_response_is_failure
    (w : World) (text : string) (r : runtime) (response : Response.t) :
  awarri_replies w text response ->
  Response.status_code response <> 200%Z \/ lacks_field response ->
  let c := generate_awarri_audio w text in
  result_of c r = inr (PNone, 0%float)
  /\ session (state_after c r) = session r
  /\ exists request msg,
       new_events c r = [request; StError msg]
       /\ (Response.status_code response <> 200%Z ->
           msg = "Awarri API error: " ++ str_int (Response.status_code response)
                 ++ " - " ++ Response.text response
           /\ carries_diagnostics msg response = true)
       /\ (Response.status_code response = 200%Z ->
           msg = "No 'base64_data' in Awarri response").
Proof.
  intros (url & api_key & [Hurl Hu] & [Hkey Hk] & Hpost) Hbad.
  unfold new_events, awarri_headers, awarri_body in *. unfold_adapters.
  rewrite Hurl, Hkey. cbn.
  rewrite (proj2 (String.eqb_neq url "") Hu), (proj2 (String.eqb_neq api_key "") Hk).
  cbn. rewrite Hpost. cbn.
  destruct (Z.eqb_spec (Response.status_code response) 200) as [H200 | Hnot200].
  - destruct Hbad as [Hne | (result & Hjson & Hlacks)]; [contradiction |].
    rewrite Hjson. cbn. rewrite Hlacks. cbn.
    repeat split. eexists _, _. rewrite <- app_assoc, skipn_length_app.
    split; [reflexivity |]. split; [intros Hne; contradiction | reflexivity].
  - cbn. repeat split. eexists _, _. rewrite <- app_assoc, skipn_length_app.
    split; [reflexivity |]. split; [| intros H200; contradiction].
    intros _. split; [reflexivity | apply api_error_carries_diagnostics].
Qed.

Lemma sample_awarri_replies (response : Response.t) :
  awarri_replies (Sample.world Sample.hello (inr response)) "Sannu da zuwa" response.
Proof.
  exists "https://tts.example/hausa", "awarri-key".
  repeat split; discriminate.
Qed.

Lemma awarri_bad_response_is_failure_witness :
  let w := Sample.world Sample.hello (inr Sample.response_500) in
  let c := generate_awarri_audio w "Sannu da zuwa" in
  awarri_replies w "Sannu da zuwa" Sample.response_500
  /\ Response.status_code Sample.response_500 <> 200%Z
  /\ result_of c (start initial_session) = inr (PNone, 0%float)
  /\ new_events c (start initial_session)
     = [awarri_request "https://tts.example/hausa" "awarri-key" "Sannu da zuwa";
        StError "Awarri API error: 500 - internal error"].
Proof.
  cbv zeta.
  pose proof (sample_awarri_replies Sample.response_500) as Hreplies.
  assert (Hstatus : Response.status_code Sample.response_500 <> 200%Z)
    by (cbn; lia).
  split; [exact Hreplies |]. split; [exact Hstatus |].
  destruct (awarri_bad_response_is_failure
              (Sample.world Sample.hello (inr Sample.response_500))
              "Sannu da zuwa" (start initial_session) Sample.response_500
              Hreplies (or_introl Hstatus)) as (Hres & _ & _).
  split; [exact Hres | vm_compute; reflexivity].
Defined.

(** C4 fails as stated: for a 200 answer whose JSON object has no
    [base64_data], the one error shown neither names the status code nor
    quotes the body. *)
Lemma missing_field_error_has_no_diagnostics :
  let w := Sample.world Sample.hello (inr Sample.response_no_field) in
  let c := generate_awarri_audio w "Sannu da zuwa" in
  lacks_field Sample.response_no_field
  /\ new_events c (start initial_session)
     = [awarri_request "https://tts.example/hausa" "awarri-key" "Sannu da zuwa";
        StError "No 'base64_data' in Awarri response"]
  /\ carries_diagnostics "No 'base64_data' in Awarri response"
       Sample.response_no_field = false
  /\ is_substring "200" "No 'base64_data' in Awarri response" = false
  /\ is_substring "{}" "No 'base64_data' in Awarri response" = false.
Proof.
  cbv zeta. split.
  - exists (PDict []). split; reflexivity.
  - repeat split; vm_compute; reflexivity.
Qed.

(** *** Successful generations *)

(** When the provider answers and the normalised answer is true (not
    empty), the handler stores it in the slot of the provider and reports
    success. *)
Lemma on_generate_stores
    (w : World) (p : provider) (text voice : string) (a : raw_answer) (r : runtime) :
  provider_returns w p text voice a ->
  not_blank text ->
  truthy (normalized a) = true ->
  let c := on_generate w p text voice in
  exists latency,
    current p (session (state_after c r))
    = Some (Current.mk (normalized a) latency text (stored_voice p voice))
    /\ audio_history (session (state_after c r)) = audio_history (session r)
    /\ new_events c r = [request_of w p text voice; StSuccess (GeneratedIn latency)].
Proof.
  intros Hret Hblank Htrue. unfold not_blank in Hblank.
  apply String.eqb_neq in Hblank.
  destruct p, a as [audio_bytes | audio]; cbn [provider_returns] in Hret;
    try contradiction.
  - destruct Hret as (client & response & Hclient & Hgen & Hread).
    cbn [normalized] in *. cbn [truthy] in Htrue.
    unfold new_events. cbn [on_generate current stored_voice request_of].
    unfold spitch_request. unfold_handlers.
    client_cases Hclient; rewrite Hblank; cbn; rewrite Hgen; cbn;
      rewrite Hread; cbn; rewrite Htrue; cbn;
      eexists; rewrite <- app_assoc, skipn_length_app; repeat split.
  - destruct Hret as (response & fields & Hreplies & Hstatus & Hjson & Hfield).
    destruct Hreplies as (url & api_key & [Hurl Hu] & [Hkey Hk] & Hpost).
    cbn [normalized] in *.
    unfold new_events, awarri_headers, awarri_body in *.
    cbn [on_generate current stored_voice request_of].
    unfold awarri_request, awarri_headers, awarri_body. unfold_handlers. cbn.
    rewrite Hblank, Hurl, Hkey. cbn.
    rewrite (proj2 (String.eqb_neq url "") Hu), (proj2 (String.eqb_neq api_key "") Hk).
    cbn. rewrite Hpost. cbn. rewrite Hstatus. cbn. rewrite Hjson. cbn.
    rewrite Hfield. cbn. rewrite Htrue. cbn.
    eexists. rewrite <- app_assoc, skipn_length_app. repeat split.
Qed.

(** Saving copies the audio of the slot into the new first entry. *)
Lemma on_save_copies_audio (w : World) (p : provider) (d : Current.t) (r : runtime) :
  exists e,
    audio_history (session (state_after (on_save w p d) r))
    = e :: audio_history (session r)
    /\ Entry.audio_base64 e = Current.audio_base64 d
    /\ Entry.text e = Current.text d
    /\ Entry.latency e = Current.latency d.
Proof.
  destruct p; cbn; eexists; repeat split.
Qed.

(** Playback is where the stored value is decoded. *)
Lemma display_decodes (audio_base64 : pyval) (r : runtime) :
  new_events (display_audio_from_base64 audio_base64) r
  = match b64decode audio_base64 with
    | inr audio_bytes => [StAudio audio_bytes "audio/wav"]
    | inl _ => []
    end.
Proof.
  unfold new_events, display_audio_from_base64, st_audio, state_after, bind,
    lift, raise, ret, emit.
  destruct (b64decode audio_base64) as [e | audio_bytes]; cbn.
  - rewrite skipn_all. reflexivity.
  - apply skipn_length_app.
Qed.

(** C8. Whenever the Spitch handler reports success, for any text and any
    voice (so for every valid text and each of the four voices), the Spitch
    slot holds a result with the requested voice, the text, and an audio
    string that is not empty: the encoding of the bytes Spitch returned. *)
Theorem spitch_success_result
    (w : World) (text voice : string) (r : runtime) :
  reports_success (on_generate_spitch w text voice) r ->
  exists audio_bytes latency,
    current_spitch_audio (session (state_after (on_generate_spitch w text voice) r))
    = Some (Current.mk (PStr (b64encode audio_bytes)) latency text (PStr voice))
    /\ b64encode audio_bytes <> ""
    /\ audio_bytes <> []
    /\ not_blank text.
Proof.
  unfold not_blank. unfold_handlers. cbn. intros Hok.
  script_cases; try (exfalso; new_events_simpl; no_such_event).
  all: match goal with
  | Hblank : negb (negb (strip _ =? "")) = false,
    Haudio : negb (b64encode ?b =? "") = true |- _ =>
      rewrite negb_involutive in Hblank;
      apply String.eqb_neq in Hblank;
      apply (proj1 (negb_true_iff _)) in Haudio;
      apply String.eqb_neq in Haudio;
      exists b; eexists; split; [reflexivity |];
      repeat split; try assumption;
      intros ->; apply Haudio; reflexivity
  end.
Qed.

Lemma spitch_success_result_witness :
  let c := on_generate_spitch Sample.awarri_world "Sannu da zuwa" "Amina" in
  reports_success c (start initial_session)
  /\ In "Amina" voice_options
  /\ String.length "Sannu da zuwa" <= max_chars
  /\ exists audio_bytes latency,
       current_spitch_audio (session (state_after c (start initial_session)))
       = Some (Current.mk (PStr (b64encode audio_bytes)) latency
                 "Sannu da zuwa" (PStr "Amina"))
       /\ b64encode audio_bytes <> ""
       /\ audio_bytes <> []
       /\ not_blank "Sannu da zuwa".
Proof.
  cbv zeta.
  assert (Hok : reports_success
            (on_generate_spitch Sample.awarri_world "Sannu da zuwa" "Amina")
            (start initial_session)).
  { exists 2.5%float. vm_compute. auto. }
  split; [exact Hok |].
  split; [cbn; tauto |].
  split; [vm_compute; lia |].
  apply (spitch_success_result Sample.awarri_world "Sannu da zuwa" "Amina"
           (start initial_session) Hok).
Defined.

Lemma on_save_events (w : World) (p : provider) (d : Current.t) (r : runtime) :
  new_events (on_save w p d) r = [StSuccess (Plain "Saved to history!")].
Proof.
  unfold new_events. destruct p; cbn; apply skipn_length_app.
Qed.

(** C6, as the code has it. When a provider answers and the handler keeps
    the answer, the slot holds the normalised answer. For Spitch that is
    base64 text: the encoding of the bytes Spitch returned. For Awarri it
    is the value of [base64_data] as received, whatever it is. Saving
    copies the stored value into the history unchanged. Neither the
    generate handler nor the save handler decodes anything (they render no
    audio player); a Spitch result played by [display_audio_from_base64]
    gives back exactly the bytes Spitch returned. *)
Theorem stored_audio_is_normalized
    (w : World) (p : provider) (text voice : string) (a : raw_answer) (r : runtime) :
  provider_returns w p text voice a ->
  not_blank text ->
  truthy (normalized a) = true ->
  let c := on_generate w p text voice in
  (exists d,
     current p (session (state_after c r)) = Some d
     /\ Current.audio_base64 d = normalized a
     /\ (p = Spitch -> base64_text (Current.audio_base64 d))
     /\ forall r', exists e,
          audio_history (session (state_after (on_save w p d) r'))
          = e :: audio_history (session r')
          /\ Entry.audio_base64 e = normalized a
          /\ audio_players (new_events (on_save w p d) r') = [])
  /\ audio_players (new_events c r) = []
  /\ (forall audio_bytes r',
        a = RawBytes audio_bytes ->
        new_events (display_audio_from_base64 (normalized a)) r'
        = [StAudio audio_bytes "audio/wav"]).
Proof.
  intros Hret Hblank Htrue.
  destruct (on_generate_stores w p text voice a r Hret Hblank Htrue)
    as (latency & Hslot & _ & Hevents).
  cbv zeta. split; [| split].
  - eexists. split; [exact Hslot |]. split; [reflexivity |]. split.
    + intros ->. destruct a as [audio_bytes | audio]; [| contradiction].
      exists audio_bytes. reflexivity.
    + intros r'.
      destruct (on_save_copies_audio w p
                  (Current.mk (normalized a) latency text (stored_voice p voice)) r')
        as (e & Hhist & Haudio & _).
      exists e. split; [exact Hhist |]. split; [exact Haudio |].
      rewrite on_save_events. reflexivity.
  - rewrite Hevents. destruct p; reflexivity.
  - intros audio_bytes r' ->. rewrite display_decodes. cbn [normalized].
    rewrite b64decode_b64encode. reflexivity.
Qed.

Lemma sample_spitch_returns :
  provider_returns Sample.awarri_world Spitch "Sannu da zuwa" "Amina"
    (RawBytes Sample.hello).
Proof.
  exists (Sample.client Sample.hello), (Speech.mk_response (inr Sample.hello)).
  repeat split.
Qed.

Lemma sample_not_blank : not_blank "Sannu da zuwa".
Proof. unfold not_blank. vm_compute. discriminate. Qed.

Lemma stored_audio_is_normalized_witness :
  (provider_returns Sample.awarri_world Spitch "Sannu da zuwa" "Amina"
     (RawBytes Sample.hello)
   /\ not_blank "Sannu da zuwa"
   /\ truthy (normalized (RawBytes Sample.hello)) = true)
  /\ normalized (RawBytes Sample.hello) = PStr "SGVsbG8="
  /\ (exists d,
        current Spitch
          (session (state_after
                      (on_generate Sample.awarri_world Spitch "Sannu da zuwa" "Amina")
                      (start initial_session))) = Some d
        /\ Current.audio_base64 d = PStr "SGVsbG8=")
  /\ new_events (display_audio_from_base64 (PStr "SGVsbG8=")) (start initial_session)
     = [StAudio Sample.hello "audio/wav"].
Proof.
  assert (Htrue : truthy (normalized (RawBytes Sample.hello)) = true)
    by (vm_compute; reflexivity).
  split; [split; [apply sample_spitch_returns | split; [apply sample_not_blank | exact Htrue]] |].
  split; [vm_compute; reflexivity |].
  destruct (stored_audio_is_normalized Sample.awarri_world Spitch
              "Sannu da zuwa" "Amina" (RawBytes Sample.hello)
              (start initial_session) sample_spitch_returns sample_not_blank Htrue)
    as ((d & Hslot & Haudio & _) & _ & Hplay).
  split.
  - exists d. split; [exact Hslot | exact Haudio].
  - apply (Hplay Sample.hello (start initial_session) eq_refl).
Defined.

(** C6 fails as stated: Awarri puts the number 5, or the text "Q", in
    [base64_data]; the handler reports success and keeps the value as it
    is, although it is no base64 text and [b64decode] rejects it. *)
Lemma awarri_stores_what_it_gets :
  let number := on_generate Scenario.awarri_number Awarri "Sannu da zuwa" "Amina" in
  let garbled := on_generate Scenario.awarri_garbled Awarri "Sannu da zuwa" "Amina" in
  (reports_success number (start initial_session)
   /\ current_awarri_audio (session (state_after number (start initial_session)))
      = Some (Current.mk (PInt 5) 2.5%float "Sannu da zuwa" PNone)
   /\ ~ base64_text (PInt 5)
   /\ b64decode (PInt 5)
      = inl (TypeError
               "argument should be a bytes-like object or ASCII string, not 'int'"))
  /\ (reports_success garbled (start initial_session)
      /\ current_awarri_audio (session (state_after garbled (start initial_session)))
         = Some (Current.mk (PStr "Q") 2.5%float "Sannu da zuwa" PNone)
      /\ ~ base64_text (PStr "Q")
      /\ ~ decodable (PStr "Q")).
Proof.
  cbv zeta. split; repeat split; try (vm_compute; reflexivity).
  - exists 2.5%float. vm_compute. auto.
  - intros [audio_bytes H]. discriminate H.
  - exists 2.5%float. vm_compute. auto.
  - intros [audio_bytes H].
    pose proof (b64decode_b64encode audio_bytes) as Hd. rewrite <- H in Hd.
    vm_compute in Hd. discriminate Hd.
  - intros [audio_bytes H]. vm_compute in H. discriminate H.
Qed.

(** C7, as the code has it. For every Spitch result kept by the handler,
    decoding the stored audio and encoding it again gives the stored
    string. An Awarri result is the provider's value as received, and the
    round trip gives it back exactly when that value is the base64 encoding
    of some bytes. *)
Theorem stored_audio_round_trip
    (w : World) (p : provider) (text voice : string) (a : raw_answer) (r : runtime) :
  provider_returns w p text voice a ->
  not_blank text ->
  truthy (normalized a) = true ->
  exists d,
    current p (session (state_after (on_generate w p text voice) r)) = Some d
    /\ match a with
       | RawBytes _ => reencode (Current.audio_base64 d) = Some (Current.audio_base64 d)
       | Base64Text audio =>
           Current.audio_base64 d = audio
           /\ (reencode audio = Some audio
               <-> exists audio_bytes, audio = PStr (b64encode audio_bytes))
       end.
Proof.
  intros Hret Hblank Htrue.
  destruct (on_generate_stores w p text voice a r Hret Hblank Htrue)
    as (latency & Hslot & _).
  eexists. split; [exact Hslot |].
  destruct a as [audio_bytes | audio]; cbn [Current.audio_base64 normalized].
  - unfold reencode. rewrite b64decode_b64encode. reflexivity.
  - split; [reflexivity |]. unfold reencode. split.
    + destruct (b64decode audio) as [e | audio_bytes]; [discriminate |].
      intros [= Heq]. exists audio_bytes. symmetry. exact Heq.
    + intros [audio_bytes ->]. rewrite b64decode_b64encode. reflexivity.
Qed.

Lemma stored_audio_round_trip_witness :
  (provider_returns Sample.awarri_world Spitch "Sannu da zuwa" "Amina"
     (RawBytes Sample.hello)
   /\ not_blank "Sannu da zuwa"
   /\ truthy (normalized (RawBytes Sample.hello)) = true)
  /\ exists d,
       current Spitch
         (session (state_after
                     (on_generate Sample.awarri_world Spitch "Sannu da zuwa" "Amina")
                     (start initial_session))) = Some d
       /\ reencode (Current.audio_base64 d) = Some (Current.audio_base64 d).
Proof.
  assert (Htrue : truthy (normalized (RawBytes Sample.hello)) = true)
    by (vm_compute; reflexivity).
  split; [split; [apply sample_spitch_returns | split; [apply sample_not_blank | exact Htrue]] |].
  apply (stored_audio_round_trip Sample.awarri_world Spitch "Sannu da zuwa" "Amina"
           (RawBytes Sample.hello) (start initial_session)
           sample_spitch_returns sample_not_blank Htrue).
Defined.

(** C7 fails as stated: Awarri sends the base64 text of one byte followed
    by a line feed; the handler keeps it as it is; decoding skips the line
    feed, so encoding again gives a different string. *)
Lemma line_terminated_audio_not_round_trip :
  let w := Sample.world Sample.hello Sample.answer_line_terminated in
  let s := run_script w (Sample.ui Widgets.GenerateAwarri) initial_session in
  current_awarri_audio s
  = Some (Current.mk (PStr ("QQ==" ++ Sample.newline)) 2.5%float "Sannu da zuwa" PNone)
  /\ b64decode (PStr ("QQ==" ++ Sample.newline)) = inr [x41]
  /\ reencode (PStr ("QQ==" ++ Sample.newline)) = Some (PStr "QQ==")
  /\ PStr "QQ==" <> PStr ("QQ==" ++ Sample.newline).
Proof.
  cbv zeta. repeat split; try (vm_compute; reflexivity).
  intros H. vm_compute in H. discriminate.
Qed.

(** *** Supporting facts about whole runs *)

(** X1. An adapter never lets an exception out: whatever the world does
    (the client raises, the POST raises, the body is no JSON, the JSON has
    the wrong shape), the call returns a pair; and whenever it shows an
    error it returns the failure pair [(None, 0.0)]. *)
Lemma adapter_total (w : World) (p : provider) (text voice : string) (r : runtime) :
  (exists audio latency, result_of (adapter w p text voice) r = inr (audio, latency))
  /\ (reports_error (adapter w p text voice) r ->
      result_of (adapter w p text voice) r = inr (PNone, 0%float)).
Proof.
  destruct p; cbn [adapter]; unfold_handlers; cbn;
    script_cases;
    (split; [eexists _, _; reflexivity |]);
    intros Herr; try reflexivity;
    exfalso; new_events_simpl; no_such_event.
Qed.

(** The Clear button never touches the history, and empties both slots
    when Streamlit accepts the assignment to the text area's key. *)
Lemma on_clear_frame (w : World) (r : runtime) :
  let s' := session (state_after (on_clear w) r) in
  audio_history s' = audio_history (session r)
  /\ (w_assign_widget w = None ->
      current_spitch_audio s' = None /\ current_awarri_audio s' = None).
Proof.
  unfold on_clear, set_text_input, clear_current_display, st_rerun.
  unfold_handlers. cbn.
  destruct (w_assign_widget w) as [e |]; cbn; split; try reflexivity.
  - discriminate.
  - intros _. split; reflexivity.
Qed.

Lemma stable_current_generation_no_save (w : World) (ui : Widgets.t) :
  Widgets.is_pressed ui Widgets.SaveSpitch = false ->
  Widgets.is_pressed ui Widgets.SaveAwarri = false ->
  stable (current_generation w ui).
Proof.
  intros Hs Ha. unfold current_generation. rewrite Hs, Ha.
  unfold display_audio_from_base64, st_audio, st_info. stable_tac.
Qed.

Lemma session_bind_stable {A B : Type} (c : M A) (k : A -> M B) (r : runtime) :
  (forall x, stable (k x)) ->
  session (state_after (bind c k) r) = session (state_after c r).
Proof.
  intros Hk. rewrite state_after_bind.
  destruct (result_of c r); [reflexivity | apply Hk].
Qed.

(** In a run started by a generate button, the slots and the history at
    the end are those the handler leaves. *)
Lemma run_generate_session (w : World) (ui : Widgets.t) (p : provider)
    (s : session_state) :
  Widgets.pressed ui = Some (generate_button p) ->
  let s' := run_script w ui s in
  let h := session (state_after
                      (on_generate w p (Widgets.text_input ui)
                         (Widgets.voice_selection ui))
                      (state_after (inputs ui) (start s))) in
  current_spitch_audio s' = current_spitch_audio h
  /\ current_awarri_audio s' = current_awarri_audio h
  /\ audio_history s' = audio_history h.
Proof.
  intros Hpressed. cbv zeta. unfold run_script.
  change (snd (main w ui (start s))) with (state_after (main w ui) (start s)).
  unfold main. rewrite state_after_bind.
  change (result_of (inputs ui) (start s)) with (@inr signal unit tt).
  cbv iota.
  set (r1 := state_after (inputs ui) (start s)).
  assert (Hrest : forall b, b = Widgets.SaveSpitch \/ b = Widgets.SaveAwarri ->
                            Widgets.is_pressed ui b = false).
  { intros b [-> | ->]; unfold Widgets.is_pressed; rewrite Hpressed;
      destruct p; reflexivity. }
  assert (Hdisplay : stable (bind (current_generation w ui) (fun _ => generation_history))).
  { apply stable_bind; [| intros _; apply stable_generation_history].
    apply stable_current_generation_no_save; apply Hrest; auto. }
  unfold Widgets.is_pressed. rewrite Hpressed.
  destruct p; cbn [generate_button on_generate when].
  - rewrite state_after_bind. cbn [result_of ret fst state_after snd].
    rewrite session_bind_stable.
    + repeat split.
    + intros _. apply stable_bind; [apply stable_ret | intros _; exact Hdisplay].
  - rewrite state_after_bind. cbn [result_of ret fst state_after snd].
    rewrite state_after_bind. cbn [result_of ret fst state_after snd].
    rewrite session_bind_stable.
    + repeat split.
    + intros _. exact Hdisplay.
Qed.

(** X16. A failed generation, seen over the whole run (the handler, then
    the current-generation and history sections): when the adapter called
    by a generate run shows an error, the slots and the history at the end
    of the run are those the run started with. *)
Lemma failed_generation_run (w : World) (ui : Widgets.t) (p : provider)
    (s : session_state) :
  Widgets.pressed ui = Some (generate_button p) ->
  reports_error
    (adapter w p (Widgets.text_input ui) (Widgets.voice_selection ui))
    (state_after (inputs ui) (start s)) ->
  let s' := run_script w ui s in
  current_spitch_audio s' = current_spitch_audio s
  /\ current_awarri_audio s' = current_awarri_audio s
  /\ audio_history s' = audio_history s.
Proof.
  intros Hpressed Herr.
  destruct (run_generate_session w ui p s Hpressed) as (H1 & H2 & H3).
  cbv zeta. rewrite H1, H2, H3.
  destruct p; cbn [adapter on_generate] in *.
  - rewrite (spitch_error_keeps_session _ _ _ _ Herr). repeat split.
  - rewrite (awarri_error_keeps_session _ _ _ Herr). repeat split.
Qed.

Lemma provider_calls_replayed (msgs : list string) :
  provider_calls (map StError msgs) = [].
Proof. induction msgs as [| m msgs IH]; [reflexivity | exact IH]. Qed.

(** X2. No retries: in every world an adapter makes at most one provider
    call, and a call it makes is the fixed request. *)
Lemma adapter_calls_at_most_once
    (w : World) (p : provider) (text voice : string) (r : runtime) :
  provider_calls (new_events (adapter w p text voice) r) = []
  \/ provider_calls (new_events (adapter w p text voice) r)
     = [request_of w p text voice].
Proof.
  unfold request_of, spitch_request, awarri_request, awarri_headers, awarri_body.
  destruct p; cbn [adapter]; unfold_handlers; cbn;
    script_cases; new_events_simpl; rewrite ?skipn_all; cbn; auto;
    first
      [ left; apply provider_calls_replayed
      | match goal with
        | H : _ || true = false |- _ => rewrite orb_true_r in H; discriminate
        end ].
Qed.

(* ===================================================================== *)
(** ** Further properties of the adapters *)
(* ===================================================================== *)

(** X3. When [initialize_spitch] hands out no client (the cache holds the
    [None] of a failed initialisation; or the cache is empty and the key is
    not in the environment or the constructor raises), the Spitch adapter
    returns the failure pair and never calls the provider. With an empty
    cache it shows exactly one "Failed to initialize Spitch" error. *)
Theorem spitch_client_unavailable
    (w : World) (text voice : string) (r : runtime) :
  client_in_use w = None ->
  let c := generate_spitch_audio w text voice in
  result_of c r = inr (PNone, 0%float)
  /\ provider_calls (new_events c r) = []
  /\ session (state_after c r) = session r
  /\ (w_spitch_cache w = None ->
      exists reason,
        new_events c r = [StError ("Failed to initialize Spitch: " ++ reason)]
        /\ (w_getenv w "SPITCH_API_KEY" = None ->
            reason = "str expected, not NoneType")).
Proof.
  intros Hnone. unfold client_in_use in Hnone. unfold new_events. unfold_adapters.
  destruct (w_spitch_cache w) as [[client | replayed] |]; cbn.
  - discriminate Hnone.
  - rewrite skipn_length_app. repeat split.
    + apply provider_calls_replayed.
    + discriminate.
  - destruct (w_getenv w "SPITCH_API_KEY") as [key |]; cbn.
    + destruct (w_Spitch w) as [e | client]; [| discriminate Hnone]. cbn.
      rewrite skipn_length_app. repeat split.
      intros _. eexists. split; [reflexivity | discriminate].
    + rewrite skipn_length_app. repeat split.
      intros _. eexists. split; reflexivity.
Qed.

Lemma spitch_client_unavailable_witness :
  let c := generate_spitch_audio Scenario.cached_failure "Sannu da zuwa" "Amina" in
  w_getenv Scenario.cached_failure "SPITCH_API_KEY" = Some "spitch-key"
  /\ client_in_use Scenario.cached_failure = None
  /\ result_of c (start initial_session) = inr (PNone, 0%float)
  /\ provider_calls (new_events c (start initial_session)) = [].
Proof.
  cbv zeta.
  assert (H : client_in_use Scenario.cached_failure = None) by reflexivity.
  split; [reflexivity |]. split; [exact H |].
  destruct (spitch_client_unavailable Scenario.cached_failure "Sannu da zuwa"
              "Amina" (start initial_session) H) as (Hres & Hcalls & _).
  split; assumption.
Defined.

(** X4. When the Spitch client raises, in [generate] or while the stream
    is read, the adapter has made its one call, shows
    "Spitch generation failed: " followed by the text of the exception, and
    returns the failure pair. *)
Theorem spitch_call_raises
    (w : World) (text voice : string) (client : Speech.client)
    (e : exception) (r : runtime) :
  client_in_use w = Some client ->
  Speech.generate client text "ha" (lower voice) = inl e
  \/ (exists response,
        Speech.generate client text "ha" (lower voice) = inr response
        /\ Speech.read response = inl e) ->
  let c := generate_spitch_audio w text voice in
  result_of c r = inr (PNone, 0%float)
  /\ new_events c r
     = [spitch_request text voice; StError ("Spitch generation failed: " ++ msg e)].
Proof.
  intros Hclient Hraise. unfold new_events, spitch_request. unfold_adapters.
  client_cases Hclient;
    (destruct Hraise as [Hgen | (response & Hgen & Hread)]; rewrite Hgen; cbn;
     [ | rewrite Hread; cbn ];
     rewrite <- app_assoc, skipn_length_app; split; reflexivity).
Qed.

Lemma spitch_call_raises_witness :
  let c := generate_spitch_audio Sample.spitch_down "Sannu da zuwa" "Amina" in
  result_of c (start initial_session) = inr (PNone, 0%float)
  /\ new_events c (start initial_session)
     = [SpeechGenerate "Sannu da zuwa" "ha" "amina";
        StError "Spitch generation failed: 401 Unauthorized"].
Proof.
  cbv zeta.
  apply (spitch_call_raises Sample.spitch_down "Sannu da zuwa" "Amina"
           (Speech.mk_client
              (fun _ _ _ => inl (Exception "APIError" "401 Unauthorized")))
           (Exception "APIError" "401 Unauthorized") (start initial_session)).
  - reflexivity.
  - left. reflexivity.
Defined.

(** X5. When the POST raises, or a 200 answer has a body that is no JSON,
    the Awarri adapter has made its one request, shows
    "Awarri generation failed: " followed by the text of the exception, and
    returns the failure pair: there is no second attempt. *)
Theorem awarri_call_raises
    (w : World) (text url api_key : string) (e : exception) (r : runtime) :
  configured (w_getenv w "AWARRI_TTS_URL") url ->
  configured (w_getenv w "AWARRI_API_KEY") api_key ->
  w_post w (PStr url) awarri_headers (awarri_body api_key text) = inl e
  \/ (exists response,
        w_post w (PStr url) awarri_headers (awarri_body api_key text) = inr response
        /\ Response.status_code response = 200%Z
        /\ Response.json response = inl e) ->
  let c := generate_awarri_audio w text in
  result_of c r = inr (PNone, 0%float)
  /\ new_events c r
     = [awarri_request url api_key text;
        StError ("Awarri generation failed: " ++ msg e)].
Proof.
  intros [Hurl Hu] [Hkey Hk] Hraise.
  unfold new_events, awarri_request, awarri_headers, awarri_body in *.
  unfold_adapters. rewrite Hurl, Hkey. cbn.
  rewrite (proj2 (String.eqb_neq url "") Hu), (proj2 (String.eqb_neq api_key "") Hk).
  cbn.
  destruct Hraise as [Hpost | (response & Hpost & Hstatus & Hjson)];
    rewrite Hpost; cbn.
  - rewrite <- app_assoc, skipn_length_app. split; reflexivity.
  - rewrite Hstatus. cbn. rewrite Hjson. cbn.
    rewrite <- app_assoc, skipn_length_app. split; reflexivity.
Qed.

Lemma awarri_call_raises_witness :
  let c := generate_awarri_audio Scenario.awarri_down "Sannu da zuwa" in
  result_of c (start initial_session) = inr (PNone, 0%float)
  /\ new_events c (start initial_session)
     = [awarri_request "https://tts.example/hausa" "awarri-key" "Sannu da zuwa";
        StError "Awarri generation failed: timed out"].
Proof.
  cbv zeta.
  apply (awarri_call_raises Scenario.awarri_down "Sannu da zuwa"
           "https://tts.example/hausa" "awarri-key" Scenario.timed_out
           (start initial_session)).
  - split; [reflexivity | discriminate].
  - split; [reflexivity | discriminate].
  - left. reflexivity.
Defined.

(** X6. Only a JSON object can give audio: when a 200 answer parses to
    anything else (a list, a string, a number, [null]), the adapter shows
    one error and returns the failure pair, even if the field name occurs
    in the list or the string. *)
Theorem awarri_non_object_json_fails
    (w : World) (text : string) (response : Response.t) (result : pyval)
    (r : runtime) :
  awarri_replies w text response ->
  Response.status_code response = 200%Z ->
  Response.json response = inr result ->
  (forall fields, result <> PDict fields) ->
  let c := generate_awarri_audio w text in
  result_of c r = inr (PNone, 0%float)
  /\ exists request reason, new_events c r = [request; StError reason].
Proof.
  intros (url & api_key & [Hurl Hu] & [Hkey Hk] & Hpost) Hstatus Hjson Hnot.
  unfold new_events, awarri_headers, awarri_body in *. unfold_adapters.
  rewrite Hurl, Hkey. cbn.
  rewrite (proj2 (String.eqb_neq url "") Hu), (proj2 (String.eqb_neq api_key "") Hk).
  cbn. rewrite Hpost. cbn. rewrite Hstatus. cbn. rewrite Hjson. cbn.
  destruct result as [| b | z | f | s | l | fields]; cbn;
    try (rewrite <- app_assoc, skipn_length_app; split;
         [reflexivity | eexists _, _; reflexivity]).
  - destruct (is_substring "base64_data" s); cbn;
      rewrite <- app_assoc, skipn_length_app; split;
      try reflexivity; eexists _, _; reflexivity.
  - destruct (existsb _ l); cbn;
      rewrite <- app_assoc, skipn_length_app; split;
      try reflexivity; eexists _, _; reflexivity.
  - exfalso. apply (Hnot fields). reflexivity.
Qed.

Lemma awarri_non_object_json_fails_witness :
  let w := Sample.world Sample.hello (inr Scenario.response_list) in
  let c := generate_awarri_audio w "Sannu da zuwa" in
  contains "base64_data" (PList [PStr "base64_data"; PStr "QQ=="]) = inr true
  /\ result_of c (start initial_session) = inr (PNone, 0%float)
  /\ exists request reason,
       new_events c (start initial_session) = [request; StError reason].
Proof.
  cbv zeta. split; [reflexivity |].
  apply (awarri_non_object_json_fails
           (Sample.world Sample.hello (inr Scenario.response_list))
           "Sannu da zuwa" Scenario.response_list
           (PList [PStr "base64_data"; PStr "QQ=="]) (start initial_session)).
  - apply sample_awarri_replies.
  - reflexivity.
  - reflexivity.
  - intros fields. discriminate.
Defined.

(** X15. When the provider answers (for Spitch: the client in use, be it
    cached or just built, answers), the adapter returns the normalised
    answer together with the difference of the two clock readings taken
    right before and right after the provider call, and shows nothing but
    the call itself. *)
Theorem adapter_success
    (w : World) (p : provider) (text voice : string) (a : raw_answer) (r : runtime) :
  provider_returns w p text voice a ->
  let c := adapter w p text voice in
  result_of c r
  = inr (normalized a, (w_time w (S (clock r)) - w_time w (clock r))%float)
  /\ new_events c r = [request_of w p text voice]
  /\ clock (state_after c r) = S (S (clock r)).
Proof.
  intros Hret.
  destruct p, a as [audio_bytes | audio]; cbn [provider_returns] in Hret;
    try contradiction.
  - destruct Hret as (client & response & Hclient & Hgen & Hread).
    unfold new_events. cbn [adapter request_of normalized]. unfold spitch_request.
    unfold_adapters.
    client_cases Hclient; rewrite Hgen; cbn; rewrite Hread; cbn;
      rewrite skipn_length_app; repeat split.
  - destruct Hret as (response & fields & Hreplies & Hstatus & Hjson & Hfield).
    destruct Hreplies as (url & api_key & [Hurl Hu] & [Hkey Hk] & Hpost).
    unfold new_events, awarri_headers, awarri_body in *.
    cbn [adapter request_of normalized].
    unfold awarri_request, awarri_headers, awarri_body. unfold_adapters.
    rewrite Hurl, Hkey. cbn.
    rewrite (proj2 (String.eqb_neq url "") Hu), (proj2 (String.eqb_neq api_key "") Hk).
    cbn. rewrite Hpost. cbn. rewrite Hstatus. cbn. rewrite Hjson. cbn.
    rewrite Hfield. cbn. rewrite skipn_length_app. repeat split.
Qed.

Lemma cached_client_returns :
  provider_returns Scenario.cached_client Spitch "Sannu da zuwa" "Amina"
    (RawBytes Sample.hello).
Proof.
  exists (Sample.client Sample.hello), (Speech.mk_response (inr Sample.hello)).
  repeat split.
Qed.

Lemma adapter_success_witness :
  let c := adapter Scenario.cached_client Spitch "Sannu da zuwa" "Amina" in
  w_getenv Scenario.cached_client "SPITCH_API_KEY" = None
  /\ provider_returns Scenario.cached_client Spitch "Sannu da zuwa" "Amina"
       (RawBytes Sample.hello)
  /\ result_of c (start initial_session) = inr (PStr "SGVsbG8=", 2.5%float).
Proof.
  cbv zeta. split; [reflexivity |]. split; [apply cached_client_returns |].
  destruct (adapter_success Scenario.cached_client Spitch "Sannu da zuwa" "Amina"
              (RawBytes Sample.hello) (start initial_session)
              cached_client_returns) as (Hres & _).
  rewrite Hres. vm_compute. reflexivity.
Defined.

(* ===================================================================== *)
(** ** Further properties of the handlers *)
(* ===================================================================== *)

(** X7. With a text that is empty or all white space, a generate handler
    only shows the warning: no provider is called, nothing is read from
    the clock, and the session stays as it was. *)
Theorem blank_text_only_warns
    (w : World) (p : provider) (text voice : string) (r : runtime) :
  strip text = "" ->
  let c := on_generate w p text voice in
  result_of c r = inr tt
  /\ new_events c r = [StWarning "Please enter text before generating"]
  /\ session (state_after c r) = session r
  /\ clock (state_after c r) = clock r.
Proof.
  intros Hblank. unfold new_events.
  destruct p; cbn [on_generate]; unfold_handlers; cbn; rewrite Hblank; cbn;
    rewrite skipn_length_app; repeat split.
Qed.

Lemma blank_text_only_warns_witness :
  let text := " " ++ Sample.newline in
  let c := on_generate Sample.awarri_world Awarri text "Amina" in
  strip text = ""
  /\ new_events c (start Sample.after_awarri_generate)
     = [StWarning "Please enter text before generating"]
  /\ session (state_after c (start Sample.after_awarri_generate))
     = Sample.after_awarri_generate.
Proof.
  cbv zeta.
  assert (Hblank : strip (" " ++ Sample.newline) = "") by (vm_compute; reflexivity).
  split; [exact Hblank |].
  destruct (blank_text_only_warns Sample.awarri_world Awarri
              (" " ++ Sample.newline) "Amina"
              (start Sample.after_awarri_generate) Hblank)
    as (_ & Hevents & Hsession & _).
  split; [exact Hevents | exact Hsession].
Defined.

(** X8. When the provider answers with nothing (no bytes from Spitch; an
    empty string, [null], zero or another false value from Awarri), the
    handler keeps no result and tells the user nothing: the session is
    unchanged and neither a success nor an error nor a warning is shown. *)
Theorem empty_answer_is_dropped_silently
    (w : World) (p : provider) (text voice : string) (a : raw_answer) (r : runtime) :
  provider_returns w p text voice a ->
  not_blank text ->
  truthy (normalized a) = false ->
  let c := on_generate w p text voice in
  result_of c r = inr tt
  /\ session (state_after c r) = session r
  /\ new_events c r = [request_of w p text voice].
Proof.
  intros Hret Hblank Hfalse. unfold not_blank in Hblank.
  apply String.eqb_neq in Hblank.
  destruct p, a as [audio_bytes | audio]; cbn [provider_returns] in Hret;
    try contradiction.
  - destruct Hret as (client & response & Hclient & Hgen & Hread).
    cbn [normalized] in *. cbn [truthy] in Hfalse.
    unfold new_events. cbn [on_generate request_of].
    unfold spitch_request. unfold_handlers.
    client_cases Hclient; rewrite Hblank; cbn; rewrite Hgen; cbn;
      rewrite Hread; cbn; rewrite Hfalse; cbn;
      rewrite skipn_length_app; repeat split.
  - destruct Hret as (response & fields & Hreplies & Hstatus & Hjson & Hfield).
    destruct Hreplies as (url & api_key & [Hurl Hu] & [Hkey Hk] & Hpost).
    cbn [normalized] in *.
    unfold new_events, awarri_headers, awarri_body in *.
    cbn [on_generate request_of].
    unfold awarri_request, awarri_headers, awarri_body. unfold_handlers. cbn.
    rewrite Hblank, Hurl, Hkey. cbn.
    rewrite (proj2 (String.eqb_neq url "") Hu), (proj2 (String.eqb_neq api_key "") Hk).
    cbn. rewrite Hpost. cbn. rewrite Hstatus. cbn. rewrite Hjson. cbn.
    rewrite Hfield. cbn. rewrite Hfalse. cbn.
    rewrite skipn_length_app. repeat split.
Qed.

Lemma silent_spitch_returns :
  provider_returns Scenario.silent_spitch Spitch "Sannu da zuwa" "Amina" (RawBytes []).
Proof.
  exists (Sample.client []), (Speech.mk_response (inr [])).
  repeat split.
Qed.

Lemma empty_answer_is_dropped_silently_witness :
  let c := on_generate Scenario.silent_spitch Spitch "Sannu da zuwa" "Amina" in
  (provider_returns Scenario.silent_spitch Spitch "Sannu da zuwa" "Amina" (RawBytes [])
   /\ not_blank "Sannu da zuwa"
   /\ truthy (normalized (RawBytes [])) = false)
  /\ session (state_after c (start Scenario.with_spitch_slot))
     = Scenario.with_spitch_slot
  /\ new_events c (start Scenario.with_spitch_slot)
     = [SpeechGenerate "Sannu da zuwa" "ha" "amina"].
Proof.
  cbv zeta.
  assert (Hfalse : truthy (normalized (RawBytes [])) = false) by reflexivity.
  split; [split; [apply silent_spitch_returns | split; [apply sample_not_blank | exact Hfalse]] |].
  destruct (empty_answer_is_dropped_silently Scenario.silent_spitch Spitch
              "Sannu da zuwa" "Amina" (RawBytes [])
              (start Scenario.with_spitch_slot)
              silent_spitch_returns sample_not_blank Hfalse)
    as (_ & Hsession & Hevents).
  split; [exact Hsession | exact Hevents].
Defined.

Lemma generate_touches_only_its_slot_aux
    (w : World) (p : provider) (text voice : string) (r : runtime) :
  let s' := session (state_after (on_generate w p text voice) r) in
  current (other p) s' = current (other p) (session r)
  /\ audio_history s' = audio_history (session r)
  /\ text_input s' = text_input (session r).
Proof.
  destruct p; cbn [on_generate other current]; unfold_handlers; cbn;
    script_cases; repeat split.
Qed.

(** X9. The two providers write disjoint slots: whatever the world does,
    the generate handler of one provider never changes the slot of the
    other, the history, or the key of the text area; and it changes its
    own slot only when it reports success. *)
Theorem generate_touches_only_its_slot
    (w : World) (p : provider) (text voice : string) (r : runtime) :
  let c := on_generate w p text voice in
  let s' := session (state_after c r) in
  current (other p) s' = current (other p) (session r)
  /\ audio_history s' = audio_history (session r)
  /\ text_input s' = text_input (session r)
  /\ (current p s' = current p (session r) \/ reports_success c r).
Proof.
  cbv zeta.
  destruct (generate_touches_only_its_slot_aux w p text voice r) as (H1 & H2 & H3).
  cbv zeta in *. repeat split; try assumption.
  clear H1 H2 H3.
  destruct p; cbn [on_generate current]; unfold_handlers; cbn;
    script_cases; auto;
    right; eexists; new_events_simpl; cbn; eauto.
Qed.

(** X14. The Clear button. If Streamlit accepts the assignment to the key
    of the text area, the run is restarted with both slots empty, the key
    reset to the empty string and the history as it was. If Streamlit
    refuses it, the exception ends the run before [clear_current_display]
    is reached, and nothing in the session changes. *)
Theorem clear_button_outcome (w : World) (r : runtime) :
  let s' := session (state_after (on_clear w) r) in
  match w_assign_widget w with
  | None =>
      result_of (on_clear w) r = inl Rerun
      /\ s' = {| audio_history := audio_history (session r);
                 current_spitch_audio := None;
                 current_awarri_audio := None;
                 text_input := "" |}
  | Some e =>
      result_of (on_clear w) r = inl (Raised e)
      /\ s' = session r
  end.
Proof.
  unfold on_clear, set_text_input, clear_current_display, st_rerun.
  unfold_handlers. cbn.
  destruct (w_assign_widget w) as [e |]; cbn; split; reflexivity.
Qed.

(* ===================================================================== *)
(** ** Further properties of whole runs *)
(* ===================================================================== *)

(** What the current-generation section does to the session: nothing, or
    (when a save button was pressed, its slot is filled and every player
    rendered before the button decoded its audio) one new first entry. *)
Lemma current_generation_effect (w : World) (ui : Widgets.t) (r : runtime) :
  let s' := session (state_after (current_generation w ui) r) in
  current_spitch_audio s' = current_spitch_audio (session r)
  /\ current_awarri_audio s' = current_awarri_audio (session r)
  /\ text_input s' = text_input (session r)
  /\ (audio_history s' = audio_history (session r)
      \/ exists p d,
           Widgets.is_pressed ui (save_button p) = true
           /\ current p (session r) = Some d
           /\ decodable (Current.audio_base64 d)
           /\ audio_history s'
              = saved_entry p (w_now w (clock r)) d :: audio_history (session r)).
Proof.
  unfold saved_entry, decodable. unfold_display. cbn.
  script_cases; repeat split; auto.
  all: right;
    first [ solve [exists Spitch; eexists; cbn; repeat split; eauto]
          | solve [exists Awarri; eexists; cbn; repeat split; eauto] ].
Qed.

Section Establishing.

Context {A B : Type}.

Lemma establishes_stable (P : session_state -> Prop) (c : M A) :
  stable c -> establishes P P c.
Proof. intros Hc r HP. rewrite Hc. exact HP. Qed.

Lemma establishes_bind (P R Q : session_state -> Prop) (c : M A) (k : A -> M B) :
  establishes P R c ->
  (forall x, establishes R Q (k x)) ->
  (forall s, R s -> Q s) ->
  establishes P Q (bind c k).
Proof.
  intros Hc Hk Hweak r HP. rewrite state_after_bind.
  destruct (result_of c r); [apply Hweak, Hc, HP | apply Hk, Hc, HP].
Qed.

End Establishing.

(** Apart from the current-generation section, a run never touches the
    history. *)
Lemma history_kept_before_display (w : World) (ui : Widgets.t)
    (h : list Entry.t) :
  let P := fun s => audio_history s = h in
  establishes P P (inputs ui)
  /\ establishes P P (when (Widgets.is_pressed ui Widgets.Clear) (on_clear w))
  /\ establishes P P
       (when (Widgets.is_pressed ui Widgets.GenerateSpitch)
          (on_generate_spitch w (Widgets.text_input ui) (Widgets.voice_selection ui)))
  /\ establishes P P
       (when (Widgets.is_pressed ui Widgets.GenerateAwarri)
          (on_generate_awarri w (Widgets.text_input ui))).
Proof.
  cbv zeta. repeat split; intros r HP.
  - exact HP.
  - destruct (Widgets.is_pressed ui Widgets.Clear); [| exact HP].
    cbn [when]. rewrite (proj1 (on_clear_frame w r)). exact HP.
  - destruct (Widgets.is_pressed ui Widgets.GenerateSpitch); [| exact HP].
    cbn [when].
    destruct (generate_touches_only_its_slot_aux w Spitch
                (Widgets.text_input ui) (Widgets.voice_selection ui) r)
      as (_ & Hh & _).
    cbn [on_generate] in Hh. rewrite Hh. exact HP.
  - destruct (Widgets.is_pressed ui Widgets.GenerateAwarri); [| exact HP].
    cbn [when].
    destruct (generate_touches_only_its_slot_aux w Awarri
                (Widgets.text_input ui) (Widgets.voice_selection ui) r)
      as (_ & Hh & _).
    cbn [on_generate] in Hh. rewrite Hh. exact HP.
Qed.

(** X10. The history is append-only: whatever the world and the user do, a
    run leaves the history as it was or puts exactly one new entry in front
    of it, and the latter only when a save button was pressed. Nothing is
    ever removed, replaced or reordered. *)
Theorem run_adds_at_most_one_entry (w : World) (ui : Widgets.t) (s : session_state) :
  let s' := run_script w ui s in
  grew_by_at_most_one (audio_history s) (audio_history s')
  /\ (audio_history s' <> audio_history s ->
      exists p, Widgets.pressed ui = Some (save_button p)).
Proof.
  cbv zeta.
  set (P := fun s1 : session_state => audio_history s1 = audio_history s).
  set (Q := fun s1 : session_state =>
              audio_history s1 = audio_history s
              \/ exists p e,
                   Widgets.is_pressed ui (save_button p) = true
                   /\ audio_history s1 = e :: audio_history s).
  assert (Hweak : forall s1, P s1 -> Q s1) by (intros s1 H; left; exact H).
  destruct (history_kept_before_display w ui (audio_history s))
    as (Hreg & Hclear & Hspitch & Hawarri).
  assert (Hmain : establishes P Q (main w ui)).
  { unfold main.
    apply (establishes_bind P P Q); [exact Hreg | intros _ | exact Hweak].
    apply (establishes_bind P P Q); [exact Hclear | intros _ | exact Hweak].
    apply (establishes_bind P P Q); [exact Hspitch | intros _ | exact Hweak].
    apply (establishes_bind P P Q); [exact Hawarri | intros _ | exact Hweak].
    apply (establishes_bind P Q Q); [| intros _ | auto].
    - intros r HP. unfold P, Q in *.
      destruct (current_generation_effect w ui r) as (_ & _ & _ & [Hsame | Hnew]).
      + left. congruence.
      + destruct Hnew as (p & d & Hpressed & _ & _ & Hh).
        right. exists p. eexists. rewrite <- HP. split; [exact Hpressed | exact Hh].
    - apply establishes_stable, stable_generation_history. }
  specialize (Hmain (start s) eq_refl). unfold Q in Hmain.
  change (session (state_after (main w ui) (start s))) with (run_script w ui s) in Hmain.
  split.
  - destruct Hmain as [Hsame | (p & e & _ & Hnew)].
    + left. exact Hsame.
    + right. exists e. exact Hnew.
  - intros Hchanged. destruct Hmain as [Hsame | (p & e & Hpressed & _)];
      [contradiction |].
    exists p. unfold Widgets.is_pressed in Hpressed.
    destruct (Widgets.pressed ui) as [[| | | |] |], p; cbn in *;
      try discriminate; reflexivity.
Qed.

(** What a run started by a save button leaves: the result of the slot in
    front of the history, and the slots as they were. *)
Lemma run_save_session (w : World) (ui : Widgets.t) (p : provider)
    (d : Current.t) (s : session_state) :
  Widgets.pressed ui = Some (save_button p) ->
  current p s = Some d ->
  decodable (Current.audio_base64 d) ->
  (p = Awarri -> slot_playable (current_spitch_audio s)) ->
  run_script w ui s
  = {| audio_history := saved_entry p (w_now w 0) d :: audio_history s;
       current_spitch_audio := current_spitch_audio s;
       current_awarri_audio := current_awarri_audio s;
       text_input := Widgets.text_input ui |}.
Proof.
  intros Hpressed Hslot [audio_bytes Hdecode] Hplayable.
  unfold run_script, main, inputs, register_text_input, saved_entry.
  unfold_display. unfold Widgets.is_pressed. rewrite Hpressed.
  destruct s as [history spitch awarri key]; cbn in *.
  destruct p; cbn in *; subst.
  - rewrite Hdecode. cbn. reflexivity.
  - destruct spitch as [d' |]; cbn.
    + destruct (Hplayable eq_refl d' eq_refl) as [bytes' Hdecode'].
      rewrite Hdecode'. cbn. rewrite Hdecode. cbn. reflexivity.
    + rewrite Hdecode. cbn. reflexivity.
Qed.

(** X11. Saving does not empty the slot and does not look for duplicates:
    pressing the same save button in two runs stores the result twice, the
    two entries differing at most in their time stamps, and the result is
    still in its slot afterwards. *)
Theorem saving_twice_stores_twice
    (w1 w2 : World) (ui1 ui2 : Widgets.t) (p : provider) (d : Current.t)
    (s : session_state) :
  Widgets.pressed ui1 = Some (save_button p) ->
  Widgets.pressed ui2 = Some (save_button p) ->
  current p s = Some d ->
  decodable (Current.audio_base64 d) ->
  (p = Awarri -> slot_playable (current_spitch_audio s)) ->
  let s' := run_script w2 ui2 (run_script w1 ui1 s) in
  audio_history s'
  = saved_entry p (w_now w2 0) d :: saved_entry p (w_now w1 0) d :: audio_history s
  /\ current p s' = Some d
  /\ current (other p) s' = current (other p) s.
Proof.
  intros Hp1 Hp2 Hslot Hdecode Hplayable. cbv zeta.
  rewrite (run_save_session w1 ui1 p d s Hp1 Hslot Hdecode Hplayable).
  rewrite (run_save_session w2 ui2 p d _ Hp2).
  - destruct p; cbn; repeat split; assumption.
  - destruct p; cbn; exact Hslot.
  - exact Hdecode.
  - exact Hplayable.
Qed.

Lemma saving_twice_stores_twice_witness :
  let w := Sample.awarri_world in
  let ui := Sample.ui Widgets.SaveSpitch in
  let s' := run_script w ui (run_script w ui Scenario.with_spitch_slot) in
  decodable (Current.audio_base64 Scenario.spitch_slot)
  /\ audio_history s'
     = [saved_entry Spitch "2024-05-01 09:30:00" Scenario.spitch_slot;
        saved_entry Spitch "2024-05-01 09:30:00" Scenario.spitch_slot]
  /\ current Spitch s' = Some Scenario.spitch_slot.
Proof.
  cbv zeta.
  assert (Hdecode : decodable (Current.audio_base64 Scenario.spitch_slot))
    by (exists Sample.hello; vm_compute; reflexivity).
  split; [exact Hdecode |].
  destruct (saving_twice_stores_twice Sample.awarri_world Sample.awarri_world
              (Sample.ui Widgets.SaveSpitch) (Sample.ui Widgets.SaveSpitch)
              Spitch Scenario.spitch_slot Scenario.with_spitch_slot
              eq_refl eq_refl eq_refl Hdecode)
    as (Hhistory & Hslot & _).
  - intros H. discriminate H.
  - split; [exact Hhistory | exact Hslot].
Defined.

Lemma failed_generation_run_witness :
  let w := Sample.world Sample.hello (inr Sample.response_500) in
  let ui := Sample.ui Widgets.GenerateAwarri in
  let s := Sample.after_awarri_generate in
  reports_error
    (adapter w Awarri (Widgets.text_input ui) (Widgets.voice_selection ui))
    (state_after (inputs ui) (start s))
  /\ current_awarri_audio (run_script w ui s) = current_awarri_audio s
  /\ audio_history (run_script w ui s) = audio_history s.
Proof.
  cbv zeta.
  assert (Herr : reports_error
            (adapter (Sample.world Sample.hello (inr Sample.response_500)) Awarri
               (Widgets.text_input (Sample.ui Widgets.GenerateAwarri))
               (Widgets.voice_selection (Sample.ui Widgets.GenerateAwarri)))
            (state_after (inputs (Sample.ui Widgets.GenerateAwarri))
               (start Sample.after_awarri_generate))).
  { exists "Awarri API error: 500 - internal error". vm_compute. auto. }
  split; [exact Herr |].
  destruct (failed_generation_run
              (Sample.world Sample.hello (inr Sample.response_500))
              (Sample.ui Widgets.GenerateAwarri) Awarri
              Sample.after_awarri_generate eq_refl Herr) as (_ & Hslot & Hhistory).
  split; [exact Hslot | exact Hhistory].
Defined.

(** *** Stored audio can be played *)

Ltac playable_tac :=
  unfold playable_invariant, decodable in *; cbn in *;
  repeat match goal with
         | H : _ /\ _ |- _ => destruct H
         end;
  repeat split; try assumption;
  try (intros ? [=]; subst; cbn; eauto; fail);
  try (constructor; [eexists; eassumption | assumption]).

Lemma playable_on_clear (w : World) : preserves playable_invariant (on_clear w).
Proof.
  intros r HI. unfold on_clear, set_text_input, clear_current_display, st_rerun.
  unfold_handlers. cbn. script_cases; playable_tac.
Qed.

Lemma playable_on_generate_spitch (w : World) (text voice : string) :
  preserves playable_invariant (on_generate_spitch w text voice).
Proof.
  intros r HI. unfold_handlers. cbn. script_cases; playable_tac.
Qed.

Lemma playable_on_generate_awarri (w : World) (text : string) :
  preserves playable_invariant (on_generate_awarri w text).
Proof.
  intros r HI. unfold_handlers. cbn. script_cases; playable_tac.
Qed.

Lemma playable_current_generation (w : World) (ui : Widgets.t) :
  preserves playable_invariant (current_generation w ui).
Proof.
  intros r HI. unfold_display. cbn. script_cases; playable_tac.
Qed.

Lemma playable_main (w : World) (ui : Widgets.t) :
  preserves playable_invariant (main w ui).
Proof.
  unfold main.
  apply preserves_bind.
  { intros r HI. unfold register_text_input. cbn. playable_tac. }
  intros _. apply preserves_bind.
  { apply preserves_when, playable_on_clear. }
  intros _. apply preserves_bind.
  { apply preserves_when, playable_on_generate_spitch. }
  intros _. apply preserves_bind.
  { apply preserves_when, playable_on_generate_awarri. }
  intros _. apply preserves_bind.
  { apply playable_current_generation. }
  intros _. apply preserves_stable, stable_generation_history.
Qed.

Lemma playable_invariant_reachable (s : session_state) :
  reachable s -> playable_invariant s.
Proof.
  induction 1 as [| s s' _ IH Hstep].
  - split; [intros d; discriminate | constructor].
  - destruct Hstep as [w ui s _]. apply (playable_main w ui (start s) IH).
Qed.

(** X12. In every session the script can reach, the audio in the Spitch
    slot is the base64 encoding of some bytes and decodes to them, and the
    audio of every history entry decodes: a result is only ever saved from
    a run that has already played it. (The Awarri slot has no such
    guarantee.) *)
Theorem reachable_audio_decodes (s : session_state) :
  reachable s ->
  (forall d, current_spitch_audio s = Some d ->
             exists audio_bytes,
               Current.audio_base64 d = PStr (b64encode audio_bytes)
               /\ b64decode (Current.audio_base64 d) = inr audio_bytes)
  /\ (forall e, In e (audio_history s) -> decodable (Entry.audio_base64 e)).
Proof.
  intros Hreach. destruct (playable_invariant_reachable s Hreach) as [Hslot Hhist].
  split.
  - intros d Hd. destruct (Hslot d Hd) as [audio_bytes Haudio].
    exists audio_bytes. split; [exact Haudio |].
    rewrite Haudio. apply b64decode_b64encode.
  - intros e He. rewrite Forall_forall in Hhist. apply Hhist, He.
Qed.

Lemma reachable_audio_decodes_witness :
  reachable Sample.after_awarri_save
  /\ forall e, In e (audio_history Sample.after_awarri_save) ->
               decodable (Entry.audio_base64 e).
Proof.
  pose proof after_awarri_save_reachable as Hreach.
  split; [exact Hreach |].
  apply (reachable_audio_decodes Sample.after_awarri_save Hreach).
Defined.

Lemma players_length (history : list Entry.t) :
  Forall (fun e => decodable (Entry.audio_base64 e)) history ->
  length (players history) = length history.
Proof.
  induction 1 as [| e history [audio_bytes He] _ IH]; [reflexivity |].
  unfold players in *. cbn [flat_map]. rewrite length_app, IH.
  unfold player. rewrite He. reflexivity.
Qed.

Lemma for_each_players (history : list Entry.t) :
  Forall (fun e => decodable (Entry.audio_base64 e)) history ->
  forall r,
    for_each history
      (fun entry => display_audio_from_base64 (Entry.audio_base64 entry)) r
    = (inr tt, {| session := session r;
                  events := (events r ++ players history)%list;
                  clock := clock r |}).
Proof.
  induction 1 as [| e history [audio_bytes He] _ IH]; intros r.
  - cbn. rewrite app_nil_r. destruct r; reflexivity.
  - cbn [for_each]. unfold bind at 1.
    unfold display_audio_from_base64 at 1, st_audio, bind, lift, ret, emit.
    rewrite He. cbn. rewrite IH. cbn.
    unfold players, player. cbn [flat_map]. rewrite He.
    rewrite <- app_assoc. reflexivity.
Qed.

(** X13. In every session the script can reach, the history section never
    raises: it shows the hint when the history is empty, and otherwise
    exactly one audio player per entry, newest first. *)
Theorem history_section_never_raises (r : runtime) :
  reachable (session r) ->
  result_of generation_history r = inr tt
  /\ new_events generation_history r
     = match audio_history (session r) with
       | [] => [StInfo "No audio generated yet. Generate some audio to see history here!"]
       | _ :: _ => players (audio_history (session r))
       end
  /\ length (players (audio_history (session r)))
     = length (audio_history (session r)).
Proof.
  intros Hreach.
  destruct (playable_invariant_reachable _ Hreach) as [_ Hhist].
  split; [| split; [| apply players_length, Hhist]].
  - unfold result_of, generation_history, bind, get_session.
    destruct (audio_history (session r)) as [| e history] eqn:Hh; [reflexivity |].
    rewrite (for_each_players _ Hhist). reflexivity.
  - unfold new_events, state_after, generation_history, bind, get_session, st_info, emit.
    destruct (audio_history (session r)) as [| e history] eqn:Hh.
    + cbn. apply skipn_length_app.
    + rewrite (for_each_players _ Hhist). cbn [snd events].
      apply skipn_length_app.
Qed.

Lemma history_section_never_raises_witness :
  let r := start Sample.after_awarri_save in
  reachable (session r)
  /\ result_of generation_history r = inr tt
  /\ new_events generation_history r = [StAudio [x41] "audio/wav"].
Proof.
  cbv zeta.
  assert (Hreach : reachable (session (start Sample.after_awarri_save)))
    by exact after_awarri_save_reachable.
  split; [exact Hreach |].
  destruct (history_section_never_raises (start Sample.after_awarri_save) Hreach)
    as (Hres & Hevents & _).
  split; [exact Hres |]. rewrite Hevents. vm_compute. reflexivity.
Defined.

Lemma b64encode_nonempty (audio_bytes : bytes) :
  audio_bytes <> [] -> truthy (PStr (b64encode audio_bytes)) = true.
Proof.
  intros Hne. destruct audio_bytes as [| a [| b [| c rest]]];
    [contradiction | reflexivity ..].
Qed.

(** X17. From the provider to the history and back: when Spitch answers a
    generate run with bytes and the user then saves, the history gains one
    entry in front, labelled "Spitch AI", with the text and the voice of
    the request, whose audio decodes to exactly the bytes Spitch sent. This
    holds whatever the Awarri slot holds and whatever the second world is. *)
Theorem generate_save_replay
    (w1 w2 : World) (ui1 ui2 : Widgets.t) (s : session_state) (audio_bytes : bytes) :
  Widgets.pressed ui1 = Some Widgets.GenerateSpitch ->
  provider_returns w1 Spitch (Widgets.text_input ui1) (Widgets.voice_selection ui1)
    (RawBytes audio_bytes) ->
  not_blank (Widgets.text_input ui1) ->
  audio_bytes <> [] ->
  Widgets.pressed ui2 = Some Widgets.SaveSpitch ->
  exists e,
    audio_history (run_script w2 ui2 (run_script w1 ui1 s)) = e :: audio_history s
    /\ Entry.model e = "Spitch AI"
    /\ Entry.text e = Widgets.text_input ui1
    /\ Entry.voice e = PStr (Widgets.voice_selection ui1)
    /\ b64decode (Entry.audio_base64 e) = inr audio_bytes.
Proof.
  intros Hp1 Hret Hblank Hne Hp2.
  pose proof (b64encode_nonempty audio_bytes Hne) as Htrue.
  destruct (run_generate_session w1 ui1 Spitch s Hp1) as (Hslot1 & _ & Hhist1).
  destruct (on_generate_stores w1 Spitch (Widgets.text_input ui1)
              (Widgets.voice_selection ui1) (RawBytes audio_bytes)
              (state_after (inputs ui1) (start s)) Hret Hblank Htrue)
    as (latency & Hstored & Hkept & _).
  cbv zeta in *. cbn [current normalized stored_voice] in Hstored.
  rewrite Hstored in Hslot1. rewrite Hkept in Hhist1. cbn in Hhist1.
  rewrite (run_save_session w2 ui2 Spitch _ (run_script w1 ui1 s) Hp2 Hslot1).
  - eexists. cbn. rewrite Hhist1. split; [reflexivity |].
    repeat split. apply b64decode_b64encode.
  - exists audio_bytes. apply b64decode_b64encode.
  - intros H. discriminate H.
Qed.

Lemma generate_save_replay_witness :
  let w := Sample.awarri_world in
  (provider_returns w Spitch "Sannu da zuwa" "Amina" (RawBytes Sample.hello)
   /\ not_blank "Sannu da zuwa" /\ Sample.hello <> [])
  /\ exists e,
       audio_history
         (run_script w (Sample.ui Widgets.SaveSpitch)
            (run_script w (Sample.ui Widgets.GenerateSpitch) initial_session))
       = e :: audio_history initial_session
       /\ Entry.model e = "Spitch AI"
       /\ Entry.text e = "Sannu da zuwa"
       /\ Entry.voice e = PStr "Amina"
       /\ b64decode (Entry.audio_base64 e) = inr Sample.hello.
Proof.
  cbv zeta.
  assert (Hne : Sample.hello <> []) by discriminate.
  split; [split; [apply sample_spitch_returns | split; [apply sample_not_blank | exact Hne]] |].
  apply (generate_save_replay Sample.awarri_world Sample.awarri_world
           (Sample.ui Widgets.GenerateSpitch) (Sample.ui Widgets.SaveSpitch)
           initial_session Sample.hello eq_refl sample_spitch_returns
           sample_not_blank Hne eq_refl).
Defined.

(** X18. The code keeps an Awarri value without checking that it decodes.
    While the Awarri slot holds such a value, a run that reaches the Awarri
    player raises the decoding error there: the save button below the
    player is never reached, so the value cannot enter the history, and the
    history section of that run is not rendered. All the run shows is the
    note on the Awarri voice and the Spitch column. *)
Theorem undecodable_awarri_result_stops_run
    (w : World) (ui : Widgets.t) (s : session_state) (d : Current.t)
    (e : exception) :
  current_awarri_audio s = Some d ->
  b64decode (Current.audio_base64 d) = inl e ->
  slot_playable (current_spitch_audio s) ->
  Widgets.pressed ui = None \/ Widgets.pressed ui = Some Widgets.SaveAwarri ->
  result_of (main w ui) (start s) = inl (Raised e)
  /\ audio_history (run_script w ui s) = audio_history s
  /\ current_awarri_audio (run_script w ui s) = Some d
  /\ events (state_after (main w ui) (start s))
     = StInfo awarri_voice_note
       :: match current_spitch_audio s with
          | Some spitch_data => player (Current.audio_base64 spitch_data)
          | None => [StInfo "Generate with Spitch to see results here"]
          end.
Proof.
  intros Hslot Hdecode Hplayable Hpressed.
  unfold run_script, result_of, state_after, main, inputs, register_text_input.
  unfold_display. unfold Widgets.is_pressed, player.
  destruct s as [history spitch awarri key]; cbn in *. subst awarri.
  destruct Hpressed as [Hp | Hp]; rewrite Hp; cbn;
    (destruct spitch as [d' |]; cbn;
     [ destruct (Hplayable d' eq_refl) as [bytes' Hdecode'];
       rewrite Hdecode'; cbn; rewrite Hdecode; cbn
     | rewrite Hdecode; cbn ]);
    repeat split.
Qed.

Lemma undecodable_awarri_result_stops_run_witness :
  let w := Scenario.awarri_garbled in
  let s := Scenario.with_garbled_slot in
  let e := BinasciiError
             "Invalid base64-encoded string: number of data characters (1) cannot be 1 more than a multiple of 4" in
  b64decode (PStr "Q") = inl e
  /\ result_of (main w Scenario.idle) (start s) = inl (Raised e)
  /\ audio_history (run_script w Scenario.idle s) = []
  /\ events (state_after (main w Scenario.idle) (start s))
     = [StInfo awarri_voice_note;
        StInfo "Generate with Spitch to see results here"].
Proof.
  cbv zeta.
  assert (Hdecode : b64decode (Current.audio_base64 Scenario.garbled_slot)
            = inl (BinasciiError
                     "Invalid base64-encoded string: number of data characters (1) cannot be 1 more than a multiple of 4"))
    by (vm_compute; reflexivity).
  split; [exact Hdecode |].
  destruct (undecodable_awarri_result_stops_run Scenario.awarri_garbled
              Scenario.idle Scenario.with_garbled_slot
              Scenario.garbled_slot _ eq_refl Hdecode)
    as (Hres & Hhistory & _ & Hevents).
  - intros d' Hd'. discriminate Hd'.
  - left. reflexivity.
  - split; [exact Hres |]. split; [exact Hhistory | exact Hevents].
Defined.

Lemma adapter_total_witness :
  let c := adapter Sample.spitch_down Spitch "Sannu da zuwa" "Amina" in
  reports_error c (start initial_session)
  /\ result_of c (start initial_session) = inr (PNone, 0%float).
Proof.
  cbv zeta.
  assert (Herr : reports_error
            (adapter Sample.spitch_down Spitch "Sannu da zuwa" "Amina")
            (start initial_session)).
  { exists "Spitch generation failed: 401 Unauthorized". vm_compute. auto. }
  split; [exact Herr |].
  apply (proj2 (adapter_total Sample.spitch_down Spitch "Sannu da zuwa" "Amina"
                  (start initial_session)) Herr).
Defined.

Lemma run_adds_at_most_one_entry_witness :
  let w := Sample.awarri_world in
  let ui := Sample.ui Widgets.SaveAwarri in
  let s := Sample.after_awarri_generate in
  audio_history (run_script w ui s) <> audio_history s
  /\ grew_by_at_most_one (audio_history s) (audio_history (run_script w ui s))
  /\ exists p, Widgets.pressed ui = Some (save_button p).
Proof.
  cbv zeta.
  assert (Hchanged : audio_history
                       (run_script Sample.awarri_world
                          (Sample.ui Widgets.SaveAwarri) Sample.after_awarri_generate)
                     <> audio_history Sample.after_awarri_generate).
  { intros H. vm_compute in H. discriminate H. }
  split; [exact Hchanged |].
  destruct (run_adds_at_most_one_entry Sample.awarri_world
              (Sample.ui Widgets.SaveAwarri) Sample.after_awarri_generate)
    as (Hgrew & Hpressed).
  split; [exact Hgrew | exact (Hpressed Hchanged)].
Defined.
